(** * britecharts: the chart export helper (src/charts/helpers/exportChart.js)

    A shallow embedding of the export pipeline: the string surgery on the
    serialized SVG markup, the base64 data URI, and the DOM side effects
    (title measurement, canvas, download link), followed by the properties
    of the specification that were checked against it. *)

From Stdlib Require Import String Ascii DecimalString DecimalPos.
From Stdlib Require Import List NArith ZArith QArith Bool Lia.
Import ListNotations.
Close Scope Q_scope.

Set Implicit Arguments.
Set Warnings "-register-all".

(* ================================================================== *)
(** ** JavaScript strings *)
(* ================================================================== *)

Module JS.

(** A JavaScript string is a sequence of UTF-16 code units. *)
Definition code_unit := N.
Definition jsstring := list code_unit.

(** ASCII literals of the source, written as Rocq strings. *)
Definition js (s : string) : jsstring :=
  List.map N_of_ascii (list_ascii_of_string s).

Definition dq : code_unit := 34%N.      (* the double quote *)
Definition lf : code_unit := 10%N.      (* the line feed of a template literal *)
Definition spaces (n : nat) : jsstring := repeat 32%N n.

Definition dollar : code_unit := 36%N.
Definition ampersand : code_unit := 38%N.
Definition backtick : code_unit := 96%N.
Definition apostrophe : code_unit := 39%N.

(** [a === b] on strings. *)
Fixpoint jsstring_eqb (a b : jsstring) : bool :=
  match a, b with
  | [], [] => true
  | x :: a', y :: b' => (x =? y)%N && jsstring_eqb a' b'
  | _, _ => false
  end.

(** The exceptions that the platform calls of the helper can raise. *)
Inductive exn :=
| TypeError
| InvalidCharacterError
| NotFoundError.

(** The numbers that reach the helper as a width, a title or a file name:
    [NaN], an infinity, or an integer.  A JavaScript number is a double:
    [Int n] stands for the double nearest to [n], which is [n] itself up
    to 2^53 in absolute value. *)
Inductive number :=
| NaN
| Inf (negative : bool)
| Int (n : Z).

Definition number_truthy (n : number) : bool :=
  match n with
  | NaN => false
  | Inf _ => true
  | Int z => negb (z =? 0)%Z
  end.

(** The values that reach the helper as [filename], [title] and markup:
    [undefined], [null], a string or a number. *)
Inductive jsval :=
| Undefined
| Null
| JStr (s : jsstring)
| JNum (n : number).

(** ToBoolean, as used by [!x] and [x || y]. *)
Definition ToBoolean (v : jsval) : bool :=
  match v with
  | Undefined | Null => false
  | JStr s => match s with [] => false | _ => true end
  | JNum n => number_truthy n
  end.

(** [x || y] *)
Definition or_else (x y : jsval) : jsval := if ToBoolean x then x else y.

(** Decimal digits of an integer, as Number::toString prints them. *)
Definition Z_toString (n : Z) : jsstring :=
  match n with
  | Z0 => js "0"
  | Zpos p => js (NilEmpty.string_of_uint (Pos.to_uint p))
  | Zneg p => js "-" ++ js (NilEmpty.string_of_uint (Pos.to_uint p))
  end.

(** *** Doubles

    Every integer up to 2^53 in absolute value is a double.  A larger one
    is rounded to 53 significant bits, to the nearest and to the even one
    on a tie; from 2^1024 on the result is an infinity. *)
Definition safe_bound : Z := 9007199254740992%Z.            (* 2^53 *)

Definition round_to_53_bits (n : Z) : Z :=
  if (n <=? safe_bound)%Z then n
  else
    let k := (Z.log2 n - 52)%Z in
    let q := Z.shiftr n k in
    let r := (n - Z.shiftl q k)%Z in
    let half := Z.shiftl 1 (k - 1) in
    let q' :=
      if (half <? r)%Z || ((r =? half)%Z && Z.odd q) then (q + 1)%Z else q in
    Z.shiftl q' k.

(** The number that an integer value becomes. *)
Definition of_Z (z : Z) : number :=
  if (Z.abs z <=? safe_bound)%Z then Int z
  else
    let m := round_to_53_bits (Z.abs z) in
    if (2 ^ 1024 <=? m)%Z then Inf (z <? 0)%Z else Int (Z.sgn z * m).

(** The results of [a / 2] and of [a / 2 - b / 2] on such numbers: a
    double that is a multiple of 1/2, kept as twice its value, an infinity
    or [NaN]. *)
Inductive dyadic :=
| Halves (twice : Z)
| Unbounded (negative : bool)
| NotANumber.

(** [n / 2]; halving a double is exact. *)
Definition div2 (n : number) : dyadic :=
  match n with
  | NaN => NotANumber
  | Inf s => Unbounded s
  | Int z =>
      match of_Z z with
      | Int m => Halves m
      | Inf s => Unbounded s
      | NaN => NotANumber
      end
  end.

(** [a - b]: the exact difference, rounded to a double. *)
Definition dsub (a b : dyadic) : dyadic :=
  match a, b with
  | NotANumber, _ | _, NotANumber => NotANumber
  | Unbounded s, Unbounded s' =>
      if Bool.eqb s s' then NotANumber else Unbounded s
  | Unbounded s, Halves _ => Unbounded s
  | Halves _, Unbounded s => Unbounded (negb s)
  | Halves x, Halves y =>
      let t := (x - y)%Z in
      if (Z.abs t <=? safe_bound)%Z then Halves t
      else
        let m := round_to_53_bits (Z.abs t) in
        if (2 ^ 1025 <=? m)%Z then Unbounded (t <? 0)%Z
        else Halves (Z.sgn t * m)
  end.

(** Number::toString of an integer double above 2^53: the digits are those
    of the shortest decimal [s * 10^(n-k)] that still rounds to the double
    (the nearest to it when there are two, the even [s] on a tie); they are
    followed by zeros up to 21 digits and written with an exponent beyond. *)
Definition shortest_candidate (v : Z) (n k : nat) : option Z :=
  let p := (10 ^ Z.of_nat (n - k))%Z in
  let lo := (v / p * p)%Z in
  let hi := (lo + p)%Z in
  let ok_lo := (round_to_53_bits lo =? v)%Z in
  let ok_hi := (round_to_53_bits hi =? v)%Z in
  if ok_lo && ok_hi then
    if (v - lo <? hi - v)%Z then Some lo
    else if (hi - v <? v - lo)%Z then Some hi
    else if Z.even (v / p) then Some lo else Some hi
  else if ok_lo then Some lo
  else if ok_hi then Some hi
  else None.

Fixpoint shortest_from (v : Z) (n k fuel : nat) : Z :=
  match fuel with
  | O => v
  | S fuel' =>
      match shortest_candidate v n k with
      | Some m => m
      | None => shortest_from v n (S k) fuel'
      end
  end.

Definition shortest_decimal (v : Z) : Z :=
  shortest_from v (List.length (Z_toString v)) 1 17.

Fixpoint strip_zeros (rev_digits : jsstring) : jsstring :=
  match rev_digits with
  | c :: r => if (c =? 48)%N then strip_zeros r else rev_digits
  | [] => []
  end.

Definition print_large (v : Z) : jsstring :=
  let digits := Z_toString (shortest_decimal v) in
  let n := List.length digits in
  if (n <=? 21)%nat then digits
  else
    match rev (strip_zeros (rev digits)) with
    | [] => digits
    | [c] => [c] ++ js "e+" ++ Z_toString (Z.of_nat n - 1)
    | c :: r => [c] ++ js "." ++ r ++ js "e+" ++ Z_toString (Z.of_nat n - 1)
    end.

(** Number::toString.  A multiple of 1/2 whose value is at most 2^53 is
    printed as an optional sign, the integer part and [.5] when there is a
    fractional part. *)
Definition Number_toString (d : dyadic) : jsstring :=
  match d with
  | NotANumber => js "NaN"
  | Unbounded false => js "Infinity"
  | Unbounded true => js "-Infinity"
  | Halves t =>
      let a := Z.abs t in
      (if (t <? 0)%Z then js "-" else []) ++
      (if (a <=? 2 * safe_bound)%Z then
         Z_toString (a / 2) ++ (if Z.odd a then js ".5" else [])
       else print_large (a / 2))
  end.

(** The number as a double, for printing. *)
Definition number_value (n : number) : dyadic :=
  match n with
  | NaN => NotANumber
  | Inf s => Unbounded s
  | Int z =>
      match of_Z z with
      | Int m => Halves (2 * m)
      | Inf s => Unbounded s
      | NaN => NotANumber
      end
  end.

(** ToString, as used by template literals and by DOMString arguments. *)
Definition ToString (v : jsval) : jsstring :=
  match v with
  | Undefined => js "undefined"
  | Null => js "null"
  | JStr s => s
  | JNum n => Number_toString (number_value n)
  end.

(** ToUint32, the conversion of a number to a WebIDL [unsigned long]. *)
Definition ToUint32 (n : number) : Z :=
  match n with
  | Int z =>
      match of_Z z with
      | Int m => (m mod 4294967296)%Z
      | _ => 0%Z
      end
  | _ => 0%Z
  end.

(** *** GetSubstitution

    The replacement text of [String.prototype.replace] is scanned for
    [$]-patterns.  Neither regular expression of this file has a capture
    group, so [$1]..[$99] and [$<] stay literal; [$$], [$&], [$`] and [$']
    are expanded. *)
Fixpoint GetSubstitution (matched before after replacement : jsstring)
  : jsstring :=
  match replacement with
  | [] => []
  | c :: r =>
      if (c =? dollar)%N then
        match r with
        | [] => [c]
        | c2 :: r2 =>
            if (c2 =? dollar)%N then
              dollar :: GetSubstitution matched before after r2
            else if (c2 =? ampersand)%N then
              matched ++ GetSubstitution matched before after r2
            else if (c2 =? backtick)%N then
              before ++ GetSubstitution matched before after r2
            else if (c2 =? apostrophe)%N then
              after ++ GetSubstitution matched before after r2
            else c :: GetSubstitution matched before after r
        end
      else c :: GetSubstitution matched before after r
  end.

(** *** The regular expressions of the helper

    [/<g/] and [/url.*&quot;\)/] (and the string pattern ['>']) are
    sequences of literal characters and of [.*]. *)
Inductive atom :=
| Lit (c : code_unit)
| DotStar.

Definition regex := list atom.

Definition lits (s : jsstring) : regex := List.map Lit s.

(** [.] matches any code unit but the line terminators LF, CR, LS and PS. *)
Definition is_line_terminator (c : code_unit) : bool :=
  ((c =? 10) || (c =? 13) || (c =? 8232) || (c =? 8233))%N.

(** Backtracking match of [p] at the start of [s]; the length of the match.
    [.*] is greedy: it takes as many characters as it can and gives them
    back one at a time while the rest of the pattern fails. *)
Fixpoint match_here (p : regex) : jsstring -> option nat :=
  match p with
  | [] => fun _ => Some 0%nat
  | Lit c :: p' =>
      fun s =>
        match s with
        | x :: s' =>
            if (x =? c)%N then option_map S (match_here p' s') else None
        | [] => None
        end
  | DotStar :: p' =>
      fix star (s : jsstring) : option nat :=
        match s with
        | x :: s' =>
            if is_line_terminator x then match_here p' s
            else match star s' with
                 | Some k => Some (S k)
                 | None => match_here p' s
                 end
        | [] => match_here p' []
        end
  end.

(** RegExp exec without the global flag: the leftmost position where the
    pattern matches; the text before the match, the match and the text
    after it. *)
Fixpoint exec (p : regex) (s : jsstring)
  : option (jsstring * jsstring * jsstring) :=
  match match_here p s with
  | Some n => Some ([], firstn n s, skipn n s)
  | None =>
      match s with
      | [] => None
      | c :: s' =>
          match exec p s' with
          | Some (before, m, after) => Some (c :: before, m, after)
          | None => None
          end
      end
  end.

(** [s.replace(pattern, replacement)]: the first match only; a string
    without a match is returned as it is. *)
Definition replace (p : regex) (replacement s : jsstring) : jsstring :=
  match exec p s with
  | Some (before, m, after) =>
      before ++ GetSubstitution m before after replacement ++ after
  | None => s
  end.

(** [regex.test(s)] *)
Definition test (p : regex) (s : jsstring) : bool :=
  match exec p s with Some _ => true | None => false end.

(** [hay.includes(needle)] *)
Definition includes (needle hay : jsstring) : bool := test (lits needle) hay.

(** Text without a [$]; text that has no line terminator. *)
Definition no_dollar (l : jsstring) : bool :=
  forallb (fun c => negb (c =? dollar)%N) l.

Definition one_line (l : jsstring) : bool :=
  forallb (fun c => negb (is_line_terminator c)) l.

(** Text whose first character cannot complete a [$]-pattern. *)
Definition starts_plain (r : jsstring) : bool :=
  match r with
  | [] => false
  | c :: _ =>
      negb ((c =? dollar) || (c =? ampersand) || (c =? backtick)
            || (c =? apostrophe))%N
  end.

End JS.

Import JS.

(* ================================================================== *)
(** ** Configuration and the pure markup transforms *)
(* ================================================================== *)

Module Config.

Definition styleClass : jsstring := js "britechartStyle".
Definition defaultFilename : jsstring := js "britechart.png".
Definition chartBackground : jsstring := js "white".
Definition imageSourceBase : jsstring := js "data:image/svg+xml;base64,".

(** [`<style>svg{background:${this.chartBackground};}</style>`] *)
Definition styleBackgroundString : jsstring :=
  js "<style>svg{background:" ++ chartBackground ++ js ";}</style>".

End Config.

(** [html.replace('>', `>${config.styleBackgroundString}`)] *)
Definition addBackground (html : jsstring) : jsstring :=
  replace (lits (js ">")) (js ">" ++ Config.styleBackgroundString) html.

(** [/url.*&quot;\)/] *)
Definition url_quot_regex : regex :=
  lits (js "url") ++ [DotStar] ++ lits (js "&quot;)").

(** [`url(&quot;#${constants.lineGradientId}&quot;);`] *)
Definition gradient_url (lineGradientId : jsstring) : jsstring :=
  js "url(&quot;#" ++ lineGradientId ++ js "&quot;);".

(** [formatHtmlByBrowser]; [bowser.name] and [constants.lineGradientId]
    come from modules outside this file and are taken as arguments. *)
Definition formatHtmlByBrowser (bowser_name lineGradientId html : jsstring)
  : jsstring :=
  if jsstring_eqb bowser_name (js "Firefox") then
    replace url_quot_regex (gradient_url lineGradientId) html
  else html.

(* ================================================================== *)
(** ** The base64 encoder *)
(* ================================================================== *)

Module Base64.

Definition alphabet : jsstring :=
  js "ABCDEFGHIJKLMNOPQRSTUVWXYZabcdefghijklmnopqrstuvwxyz0123456789+/".

Definition pad : code_unit := 61%N.     (* = *)

(** The character of a 6-bit value. *)
Definition b64char (n : N) : code_unit := nth (N.to_nat n) alphabet pad.

(** Three bytes become four characters; one or two trailing bytes are
    padded with [=]. *)
Fixpoint encode_bytes (l : list N) : jsstring :=
  match l with
  | a :: b :: c :: r =>
      b64char (a / 4) :: b64char ((a mod 4) * 16 + b / 16)
      :: b64char ((b mod 16) * 4 + c / 64) :: b64char (c mod 64)
      :: encode_bytes r
  | [a; b] =>
      [b64char (a / 4); b64char ((a mod 4) * 16 + b / 16);
       b64char ((b mod 16) * 4); pad]
  | [a] => [b64char (a / 4); b64char ((a mod 4) * 16); pad; pad]
  | [] => []
  end%N.

(** [window.btoa], which the helper takes as its encoder (the [base-64]
    package it falls back to behaves alike): the argument is a string whose
    code units are bytes; any code unit above 255 raises
    InvalidCharacterError. *)
Definition btoa (s : jsstring) : exn + jsstring :=
  if forallb (fun c => c <=? 255)%N s then inr (encode_bytes s)
  else inl InvalidCharacterError.

(** [let encoder = window.btoa], with [require('base-64').encode] in its
    place where the window has none. *)
Definition encoder : jsstring -> exn + jsstring := btoa.

(** The 6-bit value of a character of the alphabet. *)
Definition b64val (c : code_unit) : option N :=
  if ((65 <=? c) && (c <=? 90))%N then Some (c - 65)%N
  else if ((97 <=? c) && (c <=? 122))%N then Some (c - 71)%N
  else if ((48 <=? c) && (c <=? 57))%N then Some (c + 4)%N
  else if (c =? 43)%N then Some 62%N
  else if (c =? 47)%N then Some 63%N
  else None.

(** Base64 decoding (RFC 4648): groups of four characters, padding only in
    the last group. *)
Fixpoint decode (l : jsstring) : option (list N) :=
  match l with
  | [] => Some []
  | c1 :: c2 :: c3 :: c4 :: r =>
      match b64val c1, b64val c2 with
      | Some s1, Some s2 =>
          if (c3 =? pad)%N then
            if (c4 =? pad)%N then
              match r with
              | [] => Some [s1 * 4 + s2 / 16]
              | _ => None
              end
            else None
          else
            match b64val c3 with
            | Some s3 =>
                if (c4 =? pad)%N then
                  match r with
                  | [] => Some [s1 * 4 + s2 / 16; (s2 mod 16) * 16 + s3 / 4]
                  | _ => None
                  end
                else
                  match b64val c4, decode r with
                  | Some s4, Some bytes =>
                      Some (s1 * 4 + s2 / 16 :: (s2 mod 16) * 16 + s3 / 4
                            :: (s3 mod 4) * 64 + s4 :: bytes)
                  | _, _ => None
                  end
            | None => None
            end
      | _, _ => None
      end
  | _ => None
  end%N.

End Base64.

Import Base64.

(* ================================================================== *)
(** ** The document *)
(* ================================================================== *)

Module Dom.

(** The namespace of an element: what [document.createElement] and the
    HTML parser make are HTML elements; the elements of a chart are SVG
    elements. *)
Inductive namespace :=
| HTML
| SVG.

(** An element: its identity, namespace, tag, attributes and children. *)
Inductive Node :=
  mkNode { uid : nat;
           namespaceURI : namespace;
           tagName : jsstring;
           attributes : list (jsstring * jsstring);
           childNodes : list Node }.

Fixpoint getAttribute (name : jsstring) (attrs : list (jsstring * jsstring))
  : option jsstring :=
  match attrs with
  | [] => None
  | (k, v) :: rest =>
      if jsstring_eqb k name then Some v else getAttribute name rest
  end.

(** Writing an attribute replaces its value or adds it at the end. *)
Fixpoint setAttribute (name value : jsstring)
  (attrs : list (jsstring * jsstring)) : list (jsstring * jsstring) :=
  match attrs with
  | [] => [(name, value)]
  | (k, v) :: rest =>
      if jsstring_eqb k name then (k, value) :: rest
      else (k, v) :: setAttribute name value rest
  end.

Definition with_attribute (name value : jsstring) (n : Node) : Node :=
  mkNode (uid n) (namespaceURI n) (tagName n)
         (setAttribute name value (attributes n)) (childNodes n).

(** A download triggered by activating a link. *)
Record Download :=
  { dl_name : option jsstring;     (* the link's [download] attribute *)
    dl_href : option jsstring;     (* the link's [href] *)
    dl_attached : bool }.          (* was the link in the document? *)

(** A change of the children of [document.body], as a mutation observer
    on the body sees it. *)
Inductive Mutation :=
| Inserted (n : Node)
| Removed (n : Node).

(** The part of the page the helper acts on. *)
Record Document :=
  { body : list Node;              (* the children of [document.body] *)
    next_uid : nat;                (* identity of the next object created *)
    created : list jsstring;       (* tags of the objects created so far *)
    mutations : list Mutation;     (* changes of the body so far *)
    downloads : list Download }.   (* downloads triggered so far *)

(** A computation on the document that returns or throws. *)
Definition M (A : Type) : Type := Document -> Document * (exn + A).

Definition ret {A} (a : A) : M A := fun d => (d, inr a).

Definition throw {A} (e : exn) : M A := fun d => (d, inl e).

Definition bind {A B} (m : M A) (k : A -> M B) : M B :=
  fun d =>
    match m d with
    | (d', inr a) => k a d'
    | (d', inl e) => (d', inl e)
    end.

(** A call into a function that works on strings only. *)
Definition lift {A} (r : exn + A) : M A := fun d => (d, r).

(** A new object ([document.createElement(tag)], [new Image()]): its
    identity; the creation is recorded. *)
Definition create (tag : jsstring) : M nat :=
  fun d =>
    ({| body := body d;
        next_uid := S (next_uid d);
        created := created d ++ [tag];
        mutations := mutations d;
        downloads := downloads d |},
     inr (next_uid d)).

(** [document.createElement(tag)]: an HTML element. *)
Definition createElement (tag : jsstring) : M Node :=
  bind (create tag) (fun u => ret (mkNode u HTML tag [] [])).

(** The body with new children, and the change recorded. *)
Definition set_body (b : list Node) (m : Mutation) (d : Document)
  : Document :=
  {| body := b;
     next_uid := next_uid d;
     created := created d;
     mutations := mutations d ++ [m];
     downloads := downloads d |}.

Definition is_node (n m : Node) : bool := Nat.eqb (uid n) (uid m).

(** [document.body.appendChild(n)] for a node that is not in the body. *)
Definition appendChild (n : Node) : M unit :=
  fun d => (set_body (body d ++ [n]) (Inserted n) d, inr tt).

Definition detach (n : Node) (l : list Node) : list Node :=
  filter (fun m => negb (is_node n m)) l.

(** [n.remove()]: takes [n] out of its parent, if it has one. *)
Definition remove (n : Node) : M unit :=
  fun d =>
    if existsb (is_node n) (body d)
    then (set_body (detach n (body d)) (Removed n) d, inr tt)
    else (d, inr tt).

(** [document.body.removeChild(n)]: throws when [n] is no child. *)
Definition removeChild (n : Node) : M unit :=
  fun d =>
    if existsb (is_node n) (body d)
    then (set_body (detach n (body d)) (Removed n) d, inr tt)
    else (d, inl NotFoundError).

Definition has_id (id : jsstring) (n : Node) : bool :=
  match getAttribute (js "id") (attributes n) with
  | Some v => jsstring_eqb v id
  | None => false
  end.

(** The first element with the given id, in tree order. *)
Fixpoint find_id (id : jsstring) (n : Node) : option Node :=
  if has_id id n then Some n
  else
    (fix first (l : list Node) : option Node :=
       match l with
       | [] => None
       | c :: l' =>
           match find_id id c with
           | Some r => Some r
           | None => first l'
           end
       end) (childNodes n).

Fixpoint find_id_list (id : jsstring) (l : list Node) : option Node :=
  match l with
  | [] => None
  | c :: l' =>
      match find_id id c with
      | Some r => Some r
      | None => find_id_list id l'
      end
  end.

(** [document.getElementById(id)]; [None] is [null]. *)
Definition getElementById (id : jsstring) : M (option Node) :=
  fun d => (d, inr (find_id_list id (body d))).

(** [link.click()] on a link: the browser downloads [href] under the name
    of the [download] attribute. *)
Definition click (link : Node) : M unit :=
  fun d =>
    ({| body := body d;
        next_uid := next_uid d;
        created := created d;
        mutations := mutations d;
        downloads :=
          downloads d ++
          [{| dl_name := getAttribute (js "download") (attributes link);
              dl_href := getAttribute (js "href") (attributes link);
              dl_attached := existsb (is_node link) (body d) |}] |},
     inr tt).

(** Every node of the body was created before now. *)
Definition well_formed (d : Document) : Prop :=
  Forall (fun n => uid n < next_uid d)%nat (body d).

End Dom.

Import Dom.

Notation "x <- m ;; k" := (bind m (fun x => k))
  (at level 61, m at next level, right associativity).
Notation "m ;;; k" := (bind m (fun _ => k))
  (at level 61, right associativity).

(* ================================================================== *)
(** ** exportChart.js *)
(* ================================================================== *)

(** A [<canvas>]: its size and what was drawn on it. *)
Record Canvas :=
  { canvas_uid : nat;
    canvas_width : Z;
    canvas_height : Z;
    drawn : list (jsstring * Z * Z) }.   (* image source, dx, dy *)

(** An [<img>] made by [new Image()]; [onload] holds the arguments that
    [handleImageLoad.bind(img, canvas, filename)] fixes. *)
Record Image :=
  { img_uid : nat;
    src : option jsstring;
    onload : option (Canvas * jsval) }.

(** The event handed to the handler.  [e.preventDefault()] sets the
    canceled flag of a cancelable event and does nothing to another one;
    the load event of an image is not cancelable. *)
Record Event := { cancelable : bool; defaultPrevented : bool }.

Definition preventDefault (e : Event) : Event :=
  {| cancelable := cancelable e;
     defaultPrevented := cancelable e || defaultPrevented e |}.

Definition load_event : Event :=
  {| cancelable := false; defaultPrevented := false |}.

(** The chart instance that [exportChart] is a method of; [this.width()]
    and [this.height()]. *)
Record Chart := { width : number; height : number }.

(** [canvas.width = v] and [canvas.height = v]: the attribute is an
    [unsigned long] limited to 0 .. 2^31 - 1; the value is converted with
    ToUint32, and one beyond the limit sets the default (300 for the width,
    150 for the height). *)
Definition canvas_dimension (default : Z) (v : number) : Z :=
  let u := ToUint32 v in
  if (u <=? 2147483647)%Z then u else default.

(** [parseInt(v)] of an attribute value: leading white space, a sign, an
    optional [0x], then digits; [NaN] without digits.  The integer read is
    rounded to a double. *)
Definition is_white_space (c : code_unit) : bool :=
  (((9 <=? c) && (c <=? 13)) || (c =? 32) || (c =? 160) || (c =? 5760)
   || ((8192 <=? c) && (c <=? 8202)) || (c =? 8232) || (c =? 8233)
   || (c =? 8239) || (c =? 8287) || (c =? 12288) || (c =? 65279))%N.

Fixpoint trim_start (s : jsstring) : jsstring :=
  match s with
  | c :: s' => if is_white_space c then trim_start s' else s
  | [] => []
  end.

Definition digit_value (c : code_unit) : option Z :=
  if ((48 <=? c) && (c <=? 57))%N then Some (Z.of_N c - 48)%Z
  else if ((97 <=? c) && (c <=? 122))%N then Some (Z.of_N c - 87)%Z
  else if ((65 <=? c) && (c <=? 90))%N then Some (Z.of_N c - 55)%Z
  else None.

Fixpoint parse_digits (radix : Z) (acc : option Z) (s : jsstring)
  : option Z :=
  match s with
  | c :: s' =>
      match digit_value c with
      | Some v =>
          if (v <? radix)%Z then
            parse_digits radix
              (Some (match acc with Some a => a * radix + v | None => v end)%Z)
              s'
          else acc
      | None => acc
      end
  | [] => acc
  end.

Definition parseInt (v : jsval) : number :=
  let s := trim_start (ToString v) in
  let '(sign, s1) :=
    match s with
    | c :: s' =>
        if (c =? 45)%N then ((-1)%Z, s')
        else if (c =? 43)%N then (1%Z, s')
        else (1%Z, s)
    | [] => (1%Z, s)
    end in
  let '(radix, s2) :=
    match s1 with
    | c0 :: cx :: s' =>
        if ((c0 =? 48) && ((cx =? 120) || (cx =? 88)))%N then (16%Z, s')
        else (10%Z, s1)
    | _ => (10%Z, s1)
    end in
  match parse_digits radix None s2 with
  | Some n => of_Z (sign * n)
  | None => NaN
  end.

Section ExportChart.

(** What the helper takes from outside this file. *)
Variable bowser_name : jsstring.              (* [bowser.name] *)
Variable lineGradientId : jsstring.           (* [constants.lineGradientId] *)
Variable colors : list jsstring.              (* [britechartsGreySchema] *)
Variable serializer : Node -> jsstring.       (* [serializeWithStyles] *)
Variable parseTitle : jsstring -> list Node.  (* the HTML parser, on a title *)
Variable layout : list Node -> Node -> Z.     (* the rendered width of an
                                                 HTML element in a body *)
Variable toDataURL : Canvas -> jsstring -> jsstring. (* [canvas.toDataURL] *)

(** [createCanvas] *)
Definition createCanvas (width height : number) : M Canvas :=
  u <- create (js "canvas") ;;
  ret {| canvas_uid := u;
         canvas_width := canvas_dimension 300 width;
         canvas_height := canvas_dimension 150 height;
         drawn := [] |}.

(** [createImage]; the encoder gets its argument as a string. *)
Definition createImage (svgHtml : jsval) : M Image :=
  u <- create (js "img") ;;
  payload <- lift (encoder (ToString svgHtml)) ;;
  ret {| img_uid := u;
         src := Some (Config.imageSourceBase ++ payload);
         onload := None |}.

(** [drawImageOnCanvas] *)
Definition drawImageOnCanvas (image : Image) (canvas : Canvas) : Canvas :=
  {| canvas_uid := canvas_uid canvas;
     canvas_width := canvas_width canvas;
     canvas_height := canvas_height canvas;
     drawn := drawn canvas ++
              [(match src image with Some s => s | None => [] end, 0%Z, 0%Z)]
  |}.

(** [downloadCanvas]; an argument that is [undefined] takes its default. *)
Definition downloadCanvas (canvas : Canvas) (filename extensionType : jsval)
  : M unit :=
  let filename :=
    match filename with Undefined => JStr (js "britechart.png") | v => v end in
  let extensionType :=
    match extensionType with Undefined => JStr (js "image/png") | v => v end in
  let url := toDataURL canvas (ToString extensionType) in
  link <- createElement (js "a") ;;
  let link := with_attribute (js "href") url link in
  let link := with_attribute (js "download") (ToString filename) link in
  appendChild link ;;;
  click link ;;;
  removeChild link.

(** The link that [downloadCanvas] makes in a document [d]. *)
Definition download_link (url filename : jsstring) (d : Document) : Node :=
  mkNode (next_uid d) HTML (js "a")
         [(js "href", url); (js "download", filename)] [].

(** [el.offsetWidth]: an integer for an HTML element; an SVG element has
    no such property and gives [undefined], here [None]. *)
Definition offsetWidth (body : list Node) (el : Node) : option Z :=
  match namespaceURI el with
  | HTML => Some (layout body el)
  | SVG => None
  end.

(** [getTitleWidth].  [div.innerHTML = `<text id=... >${title}</text>`]
    makes the parser create one [text] element with the attributes written
    there and whatever it makes of the title inside it; [div.childNodes[0]]
    is that element, an HTML element as the parser meets it inside a
    [div]. *)
Definition title_node (u : nat) (title : jsstring) : Node :=
  mkNode u HTML (js "text")
    [(js "id", js "britechart_title");
     (js "y", js "40");
     (js "font-family", js "'Heebo', sans-serif");
     (js "style", js "display=none");
     (js "font-size", js "20px")]
    (parseTitle title).

(** The text element that [getTitleWidth] mounts in a document [d]: the
    second object it creates, after the [div]. *)
Definition mounted_title (title : jsval) (d : Document) : Node :=
  title_node (S (next_uid d)) (ToString title).

Definition getTitleWidth (title : jsval) : M (option Z) :=
  div <- createElement (js "div") ;;
  u <- create (js "text") ;;
  let text := title_node u (ToString title) in
  appendChild text ;;;
  found <- getElementById (js "britechart_title") ;;
  match found with
  | None => throw TypeError          (* [null.offsetWidth] *)
  | Some el =>
      titleWidth <- (fun d => (d, inr (offsetWidth (body d) el))) ;;
      remove text ;;;
      ret titleWidth
  end.

(** [handleImageLoad], with [this] the image. *)
Definition handleImageLoad (this : Image) (canvas : Canvas)
  (filename : jsval) (e : Event) : M (Canvas * Event) :=
  let e := preventDefault e in
  let canvas := drawImageOnCanvas this canvas in
  downloadCanvas canvas (or_else filename (JStr Config.defaultFilename))
                 Undefined ;;;
  ret (canvas, e).

(** [colors[6]] inside a template literal. *)
Definition colors_6 : jsstring :=
  match nth_error colors 6 with
  | Some c => c
  | None => js "undefined"
  end.

(** The replacement text of [prependTitle]: a template literal of five
    lines, with the indentation of the source. *)
Definition title_replacement (x : dyadic) (title : jsstring) : jsstring :=
  js "svg" ++ [dq] ++ js ">" ++ [lf] ++
  spaces 16 ++ js "<text x=" ++ [dq] ++ Number_toString x ++ [dq] ++
    js " y=" ++ [dq] ++ js "40" ++ [dq] ++
    js " font-family=" ++ [dq] ++ js "'Heebo', sans-serif" ++ [dq] ++
    js " font-size=" ++ [dq] ++ js "20px" ++ [dq] ++
    js " fill=" ++ [dq] ++ colors_6 ++ [dq] ++ js ">" ++ [lf] ++
  spaces 20 ++ title ++ [lf] ++
  spaces 16 ++ js "</text><g" ++ [lf] ++
  spaces 12.

(** [titleWidth / 2], with [undefined / 2] being [NaN]. *)
Definition half_width (titleWidth : option Z) : dyadic :=
  match titleWidth with
  | Some w => div2 (Int w)
  | None => NotANumber
  end.

(** [prependTitle]; [svgWidth] is [None] when the argument is left out. *)
Definition prependTitle (html : jsstring) (title : jsval)
  (svgWidth : option number) : M jsstring :=
  match svgWidth with
  | Some w =>
      if negb (ToBoolean title) || negb (number_truthy w) then ret html
      else
        titleWidth <- getTitleWidth title ;;
        ret (replace (lits (js "<g"))
               (title_replacement (dsub (div2 w) (half_width titleWidth))
                                  (ToString title))
               html)
  | None => ret html
  end.

(** [d3svg.attr({ version: 1.1, xmlns: 'http://www.w3.org/2000/svg'})] *)
Definition set_svg_attributes (svg : Node) : Node :=
  with_attribute (js "xmlns") (js "http://www.w3.org/2000/svg")
    (with_attribute (js "version") (js "1.1") svg).

(** [d3svg.attr('width')]; [null] without the attribute. *)
Definition attr_width (svg : Node) : jsval :=
  match getAttribute (js "width") (attributes svg) with
  | Some v => JStr v
  | None => Null
  end.

(** [convertSvgToHtml]; [d3svg] is [None] when it is missing.  The markup,
    or [undefined], and the caller's element with the attributes written
    to it. *)
Definition convertSvgToHtml (d3svg : option Node) (title : jsval)
  : M (jsval * option Node) :=
  match d3svg with
  | None => ret (Undefined, None)
  | Some svg =>
      let svg := set_svg_attributes svg in
      let html := serializer svg in
      let html := formatHtmlByBrowser bowser_name lineGradientId html in
      html <- prependTitle html title (Some (parseInt (attr_width svg))) ;;
      let html := addBackground html in
      ret (JStr html, Some svg)
  end.

(** [exportChart], with [this] the chart: the image, with its load handler
    bound, and the caller's element. *)
Definition exportChart (this : Chart) (d3svg : option Node)
  (filename title : jsval) : M (Image * option Node) :=
  r <- convertSvgToHtml d3svg title ;;
  img <- createImage (fst r) ;;
  canvas <- createCanvas (width this) (height this) ;;
  ret ({| img_uid := img_uid img;
          src := src img;
          onload := Some (canvas, filename) |},
       snd r).

End ExportChart.

(* ================================================================== *)
(** ** Vocabulary of the specification *)
(* ================================================================== *)

(** A width that is "absent or zero": left out, [NaN] or 0. *)
Definition absent_or_zero (w : option number) : bool :=
  match w with
  | None | Some NaN => true
  | Some (Inf _) => false
  | Some (Int z) => (z =? 0)%Z
  end.

(** The decimal text of half an integer: an optional sign, the integer
    part and [.5] for an odd one. *)
Definition half_text (t : Z) : jsstring :=
  (if (t <? 0)%Z then js "-" else []) ++
  js (NilEmpty.string_of_uint (N.to_uint (Z.to_N (Z.abs t / 2)))) ++
  (if Z.odd t then js ".5" else []).

(** A [<text>] element at y = 40 in the title font, with the given
    horizontal position, fill colour and content. *)
Definition text_element (x fill content : jsstring) : jsstring :=
  js "<text x=" ++ [dq] ++ x ++ [dq] ++
  js " y=" ++ [dq] ++ js "40" ++ [dq] ++
  js " font-family=" ++ [dq] ++ js "'Heebo', sans-serif" ++ [dq] ++
  js " font-size=" ++ [dq] ++ js "20px" ++ [dq] ++
  js " fill=" ++ [dq] ++ fill ++ [dq] ++ js ">" ++
  content ++ js "</text>".

(** Markup is well nested when its tags balance: every [<name ...>] is
    closed by the matching [</name>], [<name ... />] closes itself, and no
    tag is left open at the end. *)
Fixpoint tag_name (t : jsstring) : jsstring :=
  match t with
  | c :: t' =>
      if ((c =? 32) || (c =? 9) || (c =? 10) || (c =? 13) || (c =? 47))%N
      then [] else c :: tag_name t'
  | [] => []
  end.

Definition close_tag (tag : jsstring) (open : list jsstring)
  : option (list jsstring) :=
  match tag with
  | c :: name =>
      if (c =? 47)%N then
        match open with
        | top :: rest => if jsstring_eqb top name then Some rest else None
        | [] => None
        end
      else if (last tag 0 =? 47)%N then Some open
      else Some (tag_name tag :: open)
  | [] => None
  end.

Fixpoint nested (s : jsstring) (open : list jsstring)
  (tag : option jsstring) : bool :=
  match s with
  | [] =>
      match tag, open with
      | None, [] => true
      | _, _ => false
      end
  | c :: s' =>
      match tag with
      | None =>
          if (c =? 60)%N then nested s' open (Some []) else nested s' open None
      | Some t =>
          if (c =? 60)%N then false
          else if (c =? 62)%N then
            match close_tag (rev t) open with
            | Some open' => nested s' open' None
            | None => false
            end
          else nested s' open (Some (c :: t))
      end
  end%N.

Definition well_nested (markup : jsstring) : bool := nested markup [] None.

(* ================================================================== *)
(** ** A sample page and environment *)
(* ================================================================== *)

Definition empty_document : Document :=
  {| body := []; next_uid := 0; created := []; mutations := [];
     downloads := [] |}.

(** A page whose body holds the chart container. *)
Definition sample_document : Document :=
  {| body := [mkNode 0 HTML (js "div") [(js "class", js "chart")] []];
     next_uid := 1;
     created := [js "div"];
     mutations := [];
     downloads := [] |}.

Definition sample_greys : list jsstring :=
  List.map js ["#111"; "#222"; "#333"; "#444"; "#555"; "#666"; "#777";
               "#888"]%string.

Definition sample_canvas : Canvas :=
  {| canvas_uid := 7; canvas_width := 400; canvas_height := 200;
     drawn := [] |}.

Definition sample_image : Image :=
  {| img_uid := 6; src := Some (js "data:image/svg+xml;base64,");
     onload := None |}.

(* ================================================================== *)
(** ** The load event, and vocabulary for further properties *)
(* ================================================================== *)


(** The markup before the title and the background are put in: the
    serialized node, after the attribute write, as the browser needs it. *)
Definition serialized_markup (bowser_name lineGradientId : jsstring)
  (serializer : Node -> jsstring) (svg : Node) : jsstring :=
  formatHtmlByBrowser bowser_name lineGradientId
    (serializer (set_svg_attributes svg)).

(** The canvas that [exportChart] makes for a chart, as the object created
    right after the image in a document [d]. *)
Definition fresh_canvas (this : Chart) (d : Document) : Canvas :=
  {| canvas_uid := S (next_uid d);
     canvas_width := canvas_dimension 300 (width this);
     canvas_height := canvas_dimension 150 (height this);
     drawn := [] |}.

(** A replacement text whose [$] signs all stand for themselves: each is
    followed by a character that completes no [$]-pattern, or ends the
    text. *)
Fixpoint dollars_literal (t : jsstring) : bool :=
  match t with
  | [] => true
  | c :: r =>
      (if (c =? dollar)%N
       then match r with [] => true | _ => starts_plain r end
       else true)
      && dollars_literal r
  end.

(** The characters of a text up to its first line terminator. *)
Fixpoint first_line (s : jsstring) : jsstring :=
  match s with
  | [] => []
  | c :: s' => if is_line_terminator c then [] else c :: first_line s'
  end.

(** A text that does not go on with a decimal digit. *)
Definition ends_number (suffix : jsstring) : bool :=
  match suffix with
  | [] => true
  | c :: _ => negb ((48 <=? c) && (c <=? 57))%N
  end.

(** The number that decimal digits stand for, read from the left onto an
    accumulator. *)
Fixpoint uint_value (u : Decimal.uint) (acc : Z) : Z :=
  match u with
  | Decimal.Nil => acc
  | Decimal.D0 l => uint_value l (10 * acc)
  | Decimal.D1 l => uint_value l (10 * acc + 1)
  | Decimal.D2 l => uint_value l (10 * acc + 2)
  | Decimal.D3 l => uint_value l (10 * acc + 3)
  | Decimal.D4 l => uint_value l (10 * acc + 4)
  | Decimal.D5 l => uint_value l (10 * acc + 5)
  | Decimal.D6 l => uint_value l (10 * acc + 6)
  | Decimal.D7 l => uint_value l (10 * acc + 7)
  | Decimal.D8 l => uint_value l (10 * acc + 8)
  | Decimal.D9 l => uint_value l (10 * acc + 9)
  end%Z.

(** A node as the serializer of the sample environment is given it. *)
Definition sample_svg : Node :=
  mkNode 3 SVG (js "svg")
    [(js "class", js "line-chart"); (js "width", js "400px");
     (js "height", js "200")] [].

Definition sample_chart : Chart :=
  {| width := Int 400; height := Int 200 |}.

Definition sample_markup : jsstring := js "<svg width=400><g></g></svg>".

Definition sample_serializer : Node -> jsstring := fun _ => sample_markup.

(** A serializer that meets a euro sign in the chart. *)
Definition wide_serializer : Node -> jsstring :=
  fun _ => js "<svg><g>" ++ [8364%N] ++ js "</g></svg>".

Definition sample_parser : jsstring -> list Node := fun _ => [].

Definition sample_layout : list Node -> Node -> Z :=
  fun _ el => if Nat.eqb (uid el) 0 then 300%Z else 80%Z.

Definition sample_toDataURL : Canvas -> jsstring -> jsstring :=
  fun canvas type =>
    js "data:" ++ type ++ js ";base64," ++
    concat (List.map (fun i => fst (fst i)) (drawn canvas)).

(** A page that already has an element with the id of the title. *)
Definition titled_document : Document :=
  {| body := [mkNode 0 HTML (js "h1") [(js "id", js "britechart_title")] []];
     next_uid := 1;
     created := [js "h1"];
     mutations := [];
     downloads := [] |}.

(** A page where that element is part of a chart: an SVG element. *)
Definition charted_document : Document :=
  {| body := [mkNode 0 SVG (js "text") [(js "id", js "britechart_title")] []];
     next_uid := 1;
     created := [js "text"];
     mutations := [];
     downloads := [] |}.

(* ================================================================== *)
(** ** Facts about strings, matching and replacement *)
(* ================================================================== *)

Module JSFacts.

Lemma jsstring_eqb_eq (a b : jsstring) : jsstring_eqb a b = true <-> a = b.
Proof.
  revert b. induction a as [|x a IH]; intros [|y b]; simpl;
    try (split; [discriminate | discriminate]); [now split|].
  rewrite andb_true_iff, N.eqb_eq, IH. split.
  - now intros [-> ->].
  - intros H; inversion H; now split.
Qed.

Lemma jsstring_eqb_refl (a : jsstring) : jsstring_eqb a a = true.
Proof. now apply jsstring_eqb_eq. Qed.

(** *** Literal patterns *)

Lemma match_here_lits_prefix (l r : jsstring) :
  match_here (lits l) (l ++ r) = Some (List.length l).
Proof.
  induction l as [|c l IH]; simpl; [reflexivity|].
  rewrite N.eqb_refl. now rewrite IH.
Qed.

Lemma match_here_lits_inv (l s : jsstring) (n : nat) :
  match_here (lits l) s = Some n ->
  n = List.length l /\ s = l ++ skipn n s.
Proof.
  revert s n. induction l as [|c l IH]; simpl; intros s n H.
  - inversion H. now subst.
  - destruct s as [|x s]; [discriminate|].
    destruct (N.eqb_spec x c); [|discriminate]. subst x.
    destruct (match_here (lits l) s) as [k|] eqn:E; [|discriminate].
    inversion H; subst n. apply IH in E. destruct E as [-> E].
    split; [reflexivity|]. simpl. now rewrite <- E.
Qed.

(** The equations of [.*]. *)
Lemma match_here_star_nil (p : regex) :
  match_here (DotStar :: p) [] = match_here p [].
Proof. reflexivity. Qed.

Lemma match_here_star_cons (p : regex) (x : code_unit) (s : jsstring) :
  match_here (DotStar :: p) (x :: s) =
  if is_line_terminator x then match_here p (x :: s)
  else match match_here (DotStar :: p) s with
       | Some k => Some (S k)
       | None => match_here p (x :: s)
       end.
Proof. reflexivity. Qed.

(** A match lies within the subject. *)
Lemma match_here_length (p : regex) (s : jsstring) (n : nat) :
  match_here p s = Some n -> (n <= List.length s)%nat.
Proof.
  revert s n. induction p as [|a p IHp]; intros s n.
  - simpl. intros E; inversion E. lia.
  - destruct a as [x|].
    + simpl. destruct s as [|y s]; [discriminate|].
      destruct (y =? x)%N; [|discriminate].
      destruct (match_here p s) as [k|] eqn:Ek; [|discriminate].
      intros E; inversion E. apply IHp in Ek. simpl. lia.
    + revert n. induction s as [|y s IHs]; intros n.
      * rewrite match_here_star_nil. intros E. now apply IHp in E.
      * rewrite match_here_star_cons. destruct (is_line_terminator y).
        -- intros E. now apply IHp in E.
        -- destruct (match_here (DotStar :: p) s) as [k|] eqn:Ek.
           ++ intros E; inversion E. specialize (IHs k eq_refl). simpl. lia.
           ++ intros E. now apply IHp in E.
Qed.

(** What [exec] returns is a decomposition of the subject at a match. *)
Lemma exec_sound (p : regex) (s before m after : jsstring) :
  exec p s = Some (before, m, after) ->
  s = before ++ m ++ after /\
  match_here p (m ++ after) = Some (List.length m) /\
  (forall b' r, s = b' ++ r -> (List.length b' < List.length before)%nat ->
                match_here p r = None).
Proof.
  revert before m after.
  induction s as [|c s IH]; intros before m after H; simpl in H.
  - destruct (match_here p []) as [n|] eqn:E; [|discriminate].
    inversion H; subst. pose proof (@match_here_length _ _ _ E) as Hn.
    simpl in Hn. assert (n = 0)%nat by lia. subst n. simpl.
    split; [reflexivity|]. split; [exact E|].
    intros b' r _ Hl. simpl in Hl. lia.
  - destruct (match_here p (c :: s)) as [n|] eqn:E.
    + inversion H; subst. rewrite firstn_skipn.
      split; [reflexivity|]. split.
      * rewrite E. f_equal.
        apply match_here_length in E.
        symmetry. now apply firstn_length_le.
      * intros b' r _ Hl. simpl in Hl. lia.
    + destruct (exec p s) as [[[b0 m0] a0]|] eqn:Ex; [|discriminate].
      inversion H; subst. destruct (IH _ _ _ eq_refl) as (Hs & Hm & Hfirst).
      split; [simpl; now rewrite Hs at 1|]. split; [exact Hm|].
      intros b' r Hbr Hl. destruct b' as [|y b'].
      * simpl in Hbr. subst r. exact E.
      * simpl in Hbr. inversion Hbr. subst y.
        apply Hfirst with (b' := b'); [assumption | simpl in Hl; lia].
Qed.


(** A match exists as soon as the pattern matches somewhere. *)
Lemma exec_complete (p : regex) (b r : jsstring) (n : nat) :
  match_here p r = Some n -> exec p (b ++ r) <> None.
Proof.
  intros Hm. induction b as [|c b IH]; simpl.
  - destruct r; simpl; rewrite Hm; discriminate.
  - destruct (match_here p (c :: b ++ r)); [discriminate|].
    destruct (exec p (b ++ r)) as [[[b0 m0] a0]|]; [discriminate|].
    now destruct IH.
Qed.

Lemma app_same_length (A : Type) (a c b d : list A) :
  List.length a = List.length c -> a ++ b = c ++ d -> a = c /\ b = d.
Proof.
  revert c. induction a as [|x a IH]; intros [|y c] Hl H;
    try discriminate; simpl in *.
  - now split.
  - inversion H. subst. destruct (IH c) as [-> ->]; auto.
Qed.

(** The first occurrence of a literal. *)
Lemma exec_lits_first (l s before m after : jsstring) :
  exec (lits l) s = Some (before, m, after) ->
  m = l /\ s = before ++ l ++ after /\
  (forall p q, s = p ++ l ++ q -> (List.length before <= List.length p)%nat).
Proof.
  intros H. apply exec_sound in H. destruct H as (Hs & Hm & Hfirst).
  apply match_here_lits_inv in Hm. destruct Hm as [Hlen Hm].
  assert (m = l).
  { rewrite Hlen in Hm. symmetry in Hlen.
    exact (proj1 (app_same_length _ _ _ _ (eq_sym Hlen) Hm)). }
  subst m. split; [reflexivity|]. split; [exact Hs|].
  intros p q Hpq.
  destruct (Nat.le_gt_cases (List.length before) (List.length p)) as [|Hlt];
    [assumption|].
  specialize (Hfirst p (l ++ q) Hpq Hlt).
  rewrite match_here_lits_prefix in Hfirst. discriminate.
Qed.

Lemma exec_lits_found (l p q : jsstring) :
  exists before after, exec (lits l) (p ++ l ++ q) = Some (before, l, after).
Proof.
  destruct (exec (lits l) (p ++ l ++ q)) as [[[b m] a]|] eqn:E.
  - destruct (exec_lits_first _ _ E) as (-> & _). now exists b, a.
  - exfalso. revert E. apply exec_complete with (n := List.length l).
    apply match_here_lits_prefix.
Qed.

(** [includes] is the substring test. *)
Lemma includes_true (needle hay : jsstring) :
  includes needle hay = true <->
  exists p q, hay = p ++ needle ++ q.
Proof.
  unfold includes, test. split.
  - destruct (exec (lits needle) hay) as [[[b m] a]|] eqn:E; [|discriminate].
    intros _. destruct (exec_lits_first _ _ E) as (_ & Hs & _).
    now exists b, a.
  - intros (p & q & ->).
    destruct (exec_lits_found needle p q) as (b & a & ->). reflexivity.
Qed.

Lemma includes_false (needle hay : jsstring) :
  includes needle hay = false <-> exec (lits needle) hay = None.
Proof.
  unfold includes, test. destruct (exec (lits needle) hay); split;
    congruence.
Qed.

(** A single character that does not occur before its first occurrence. *)
Lemma exec_char (c : code_unit) (l r : jsstring) :
  existsb (N.eqb c) l = false ->
  exec (lits [c]) (l ++ c :: r) = Some (l, [c], r).
Proof.
  induction l as [|x l IH]; simpl; intros H.
  - now rewrite N.eqb_refl.
  - apply orb_false_iff in H. destruct H as [Hx Hl].
    rewrite N.eqb_sym in Hx. rewrite Hx.
    specialize (IH Hl). simpl in IH. now rewrite IH.
Qed.

Lemma replace_no_match (p : regex) (r s : jsstring) :
  exec p s = None -> replace p r s = s.
Proof. unfold replace. now intros ->. Qed.

(** *** Replacement text *)

Lemma no_dollar_app (a b : jsstring) :
  no_dollar (a ++ b) = no_dollar a && no_dollar b.
Proof. apply forallb_app. Qed.

(** Text without [$] is copied. *)
Lemma GetSubstitution_plain (m b a l r : jsstring) :
  no_dollar l = true ->
  GetSubstitution m b a (l ++ r) = l ++ GetSubstitution m b a r.
Proof.
  induction l as [|c l IH]; simpl; intros H; [reflexivity|].
  apply andb_true_iff in H. destruct H as [Hc Hl].
  apply negb_true_iff in Hc. rewrite Hc. now rewrite IH.
Qed.

Lemma GetSubstitution_plain_all (m b a l : jsstring) :
  no_dollar l = true -> GetSubstitution m b a l = l.
Proof.
  intros H. rewrite <- (app_nil_r l) at 1.
  rewrite GetSubstitution_plain by assumption. simpl. apply app_nil_r.
Qed.

(** A [$]-pattern never spans a boundary after which an ordinary character
    comes. *)
Lemma GetSubstitution_cons2 (m b a : jsstring) (c c2 : code_unit)
  (r2 : jsstring) :
  GetSubstitution m b a (c :: c2 :: r2) =
  if (c =? dollar)%N then
    if (c2 =? dollar)%N then dollar :: GetSubstitution m b a r2
    else if (c2 =? ampersand)%N then m ++ GetSubstitution m b a r2
    else if (c2 =? backtick)%N then b ++ GetSubstitution m b a r2
    else if (c2 =? apostrophe)%N then a ++ GetSubstitution m b a r2
    else c :: GetSubstitution m b a (c2 :: r2)
  else c :: GetSubstitution m b a (c2 :: r2).
Proof. reflexivity. Qed.

Lemma GetSubstitution_app (m b a l r : jsstring) :
  starts_plain r = true ->
  GetSubstitution m b a (l ++ r) =
  GetSubstitution m b a l ++ GetSubstitution m b a r.
Proof.
  intros Hr.
  assert (H : forall n l, (List.length l <= n)%nat ->
            GetSubstitution m b a (l ++ r) =
            GetSubstitution m b a l ++ GetSubstitution m b a r).
  { clear l. induction n as [|n IH]; intros l Hl.
    - destruct l; [reflexivity | simpl in Hl; lia].
    - destruct l as [|c [|c2 l]]; [reflexivity | |].
      + destruct r as [|x r]; [discriminate|].
        simpl in Hr. apply negb_true_iff in Hr.
        apply orb_false_iff in Hr. destruct Hr as [Hr H4].
        apply orb_false_iff in Hr. destruct Hr as [Hr H3].
        apply orb_false_iff in Hr. destruct Hr as [H1 H2].
        change ([c] ++ x :: r) with (c :: x :: r).
        rewrite GetSubstitution_cons2, H1, H2, H3, H4.
        simpl. destruct (c =? dollar)%N; reflexivity.
      + simpl in Hl.
        change ((c :: c2 :: l) ++ r) with (c :: c2 :: (l ++ r)).
        rewrite !GetSubstitution_cons2.
        change (c2 :: l ++ r) with ((c2 :: l) ++ r).
        rewrite (IH l) by lia. rewrite (IH (c2 :: l)) by (simpl; lia).
        destruct (c =? dollar)%N; [|reflexivity].
        destruct (c2 =? dollar)%N; [reflexivity|].
        destruct (c2 =? ampersand)%N; [now rewrite app_assoc|].
        destruct (c2 =? backtick)%N; [now rewrite app_assoc|].
        destruct (c2 =? apostrophe)%N; [now rewrite app_assoc|].
        reflexivity. }
  apply H with (n := List.length l). lia.
Qed.

Lemma no_dollar_uint (u : Decimal.uint) :
  no_dollar (js (NilEmpty.string_of_uint u)) = true.
Proof. induction u; simpl; auto. Qed.

Lemma no_dollar_Z_toString (n : Z) : no_dollar (Z_toString n) = true.
Proof.
  destruct n; simpl; [reflexivity | apply no_dollar_uint |].
  apply (no_dollar_uint (Pos.to_uint p)).
Qed.

Lemma no_dollar_rev (l : jsstring) : no_dollar (rev l) = no_dollar l.
Proof.
  induction l as [|c l IH]; [reflexivity|].
  simpl rev. rewrite no_dollar_app, IH. simpl.
  rewrite andb_true_r. apply andb_comm.
Qed.

Lemma no_dollar_strip_zeros (l : jsstring) :
  no_dollar l = true -> no_dollar (strip_zeros l) = true.
Proof.
  induction l as [|c l IH]; intros H; [reflexivity|].
  simpl strip_zeros. destruct (c =? 48)%N; [|exact H].
  apply IH. simpl in H. apply andb_true_iff in H. apply H.
Qed.

Lemma no_dollar_print_large (v : Z) : no_dollar (print_large v) = true.
Proof.
  unfold print_large.
  set (digits := Z_toString (shortest_decimal v)).
  assert (Hd : no_dollar digits = true) by apply no_dollar_Z_toString.
  destruct (List.length digits <=? 21)%nat; [exact Hd|].
  assert (Hs : no_dollar (rev (strip_zeros (rev digits))) = true).
  { rewrite no_dollar_rev. apply no_dollar_strip_zeros.
    rewrite no_dollar_rev. exact Hd. }
  destruct (rev (strip_zeros (rev digits))) as [|c [|c' r]]; [exact Hd| |].
  - rewrite !no_dollar_app, Hs, no_dollar_Z_toString. reflexivity.
  - change (c :: c' :: r) with ([c] ++ c' :: r) in Hs.
    rewrite no_dollar_app in Hs. apply andb_true_iff in Hs as [Hc Hr].
    rewrite !no_dollar_app, Hc, Hr, no_dollar_Z_toString. reflexivity.
Qed.

Lemma no_dollar_Number_toString (d : dyadic) :
  no_dollar (Number_toString d) = true.
Proof.
  destruct d as [t|[|]|]; try reflexivity.
  unfold Number_toString. rewrite no_dollar_app.
  apply andb_true_iff. split; [destruct (t <? 0)%Z; reflexivity|].
  destruct (Z.abs t <=? 2 * safe_bound)%Z; [|apply no_dollar_print_large].
  rewrite no_dollar_app, no_dollar_Z_toString.
  destruct (Z.odd (Z.abs t)); reflexivity.
Qed.

End JSFacts.

Module RegexFacts.

Import JSFacts.

(** What a successful [.*&quot;\)] has matched. *)
Lemma star_lits_sound (q s : jsstring) (n : nat) :
  match_here (DotStar :: lits q) s = Some n ->
  exists mid rest,
    s = mid ++ q ++ rest /\ one_line mid = true /\
    n = (List.length mid + List.length q)%nat.
Proof.
  revert n. induction s as [|x s IH]; intros n.
  - rewrite match_here_star_nil. intros H.
    apply match_here_lits_inv in H. destruct H as [-> H].
    exists [], (skipn (List.length q) []). now repeat split.
  - rewrite match_here_star_cons.
    assert (Hhere : match_here (lits q) (x :: s) = Some n ->
              exists mid rest, x :: s = mid ++ q ++ rest /\
                one_line mid = true /\
                n = (List.length mid + List.length q)%nat).
    { intros H. apply match_here_lits_inv in H. destruct H as [-> H].
      exists [], (skipn (List.length q) (x :: s)). now repeat split. }
    destruct (is_line_terminator x) eqn:Ex; [exact Hhere|].
    destruct (match_here (DotStar :: lits q) s) as [k|]; [|exact Hhere].
    intros H. inversion H; subst n.
    destruct (IH k eq_refl) as (mid & rest & -> & Hmid & ->).
    exists (x :: mid), rest. repeat split.
    simpl. now rewrite Ex.
Qed.

(** What [/url.*&quot;\)/] matches. *)
Lemma url_quot_match (s before m after : jsstring) :
  exec url_quot_regex s = Some (before, m, after) ->
  exists mid,
    m = js "url" ++ mid ++ js "&quot;)" /\ one_line mid = true /\
    s = before ++ (js "url" ++ mid ++ js "&quot;)") ++ after.
Proof.
  intros H. apply exec_sound in H. destruct H as (Hs & Hm & _).
  pose proof (@match_here_length _ _ _ Hm) as Hlen.
  change url_quot_regex
    with (Lit 117%N :: Lit 114%N :: Lit 108%N
          :: DotStar :: lits (js "&quot;)")) in Hm.
  destruct (m ++ after) as [|c1 [|c2 [|c3 r]]] eqn:E; try discriminate Hm.
  - cbn [match_here] in Hm. destruct (c1 =? 117)%N; discriminate Hm.
  - cbn [match_here] in Hm.
    destruct (c1 =? 117)%N, (c2 =? 114)%N; discriminate Hm.
  - change (match_here (Lit 117%N :: Lit 114%N :: Lit 108%N
                        :: DotStar :: lits (js "&quot;)")) (c1 :: c2 :: c3 :: r))
      with (if (c1 =? 117)%N then
              option_map S
                (if (c2 =? 114)%N then
                   option_map S
                     (if (c3 =? 108)%N then
                        option_map S
                          (match_here (DotStar :: lits (js "&quot;)")) r)
                      else None)
                 else None)
            else None) in Hm.
    destruct (N.eqb_spec c1 117); [subst c1 | discriminate Hm].
    destruct (N.eqb_spec c2 114); [subst c2 | discriminate Hm].
    destruct (N.eqb_spec c3 108); [subst c3 | discriminate Hm].
    destruct (match_here (DotStar :: lits (js "&quot;)")) r) as [k|] eqn:Ek;
      [|discriminate Hm].
    simpl in Hm. inversion Hm as [Hk].
    destruct (star_lits_sound _ _ Ek) as (mid & rest & -> & Hmid & ->).
    exists mid.
    assert (Hl : List.length m
                 = List.length (js "url" ++ mid ++ js "&quot;)")).
    { rewrite <- Hk. rewrite !length_app. simpl. lia. }
    assert (E' : m ++ after = (js "url" ++ mid ++ js "&quot;)") ++ rest).
    { rewrite E. repeat rewrite <- app_assoc. reflexivity. }
    destruct (app_same_length _ _ _ _ Hl E') as [Hm' Ha].
    split; [exact Hm'|]. split; [exact Hmid|].
    rewrite Hs, Ha. repeat rewrite <- app_assoc. reflexivity.
Qed.


(** *** A second pass over what the first pass wrote *)

Lemma match_here_lit_cons (c x : code_unit) (p : regex) (s : jsstring) :
  match_here (Lit c :: p) (x :: s) =
  if (x =? c)%N then option_map S (match_here p s) else None.
Proof. reflexivity. Qed.

Lemma match_here_lit_nil (c : code_unit) (p : regex) :
  match_here (Lit c :: p) [] = None.
Proof. reflexivity. Qed.

Local Abbreviation quot := (js "&quot;)").
Local Abbreviation star := (match_here (DotStar :: lits quot)).

Lemma star_cons_clean (x : code_unit) (s : jsstring) (k : nat) :
  is_line_terminator x = false -> star s = Some k ->
  star (x :: s) = Some (S k).
Proof. intros Hx Hs. now rewrite match_here_star_cons, Hx, Hs. Qed.

Lemma star_app_clean (mid s : jsstring) (k : nat) :
  one_line mid = true -> star s = Some k ->
  star (mid ++ s) = Some (List.length mid + k)%nat.
Proof.
  intros Hmid Hs. induction mid as [|x mid IH]; [exact Hs|].
  simpl in Hmid. apply andb_true_iff in Hmid. destruct Hmid as [Hx Hmid].
  apply negb_true_iff in Hx. simpl.
  apply star_cons_clean; [exact Hx | now apply IH].
Qed.

Lemma star_at_quot (rest : jsstring) : exists k, star (quot ++ rest) = Some k.
Proof.
  change (quot ++ rest) with (38%N :: js "quot;)" ++ rest).
  rewrite match_here_star_cons. change (is_line_terminator 38%N) with false.
  cbv iota. destruct (star (js "quot;)" ++ rest)) as [k|]; [now eexists|].
  eexists. reflexivity.
Qed.

Lemma star_found (mid rest : jsstring) :
  one_line mid = true -> exists k, star (mid ++ quot ++ rest) = Some k.
Proof.
  intros Hmid. destruct (star_at_quot rest) as [k Hk].
  eexists. apply star_app_clean; eassumption.
Qed.

(** The characters after a greedy match hold no further [&quot;)] on the
    line of the match. *)
Lemma star_greedy (mid rest : jsstring) :
  one_line mid = true ->
  star (mid ++ quot ++ rest) = Some (List.length mid + List.length quot)%nat ->
  star rest = None.
Proof.
  intros Hmid H. destruct (star rest) as [k|] eqn:Ek; [|reflexivity].
  exfalso.
  assert (Hone : one_line (mid ++ quot) = true).
  { unfold one_line in *. rewrite forallb_app, Hmid. reflexivity. }
  pose proof (@star_app_clean (mid ++ quot) rest k Hone Ek) as H'.
  rewrite <- app_assoc in H'. rewrite H' in H.
  destruct (star_lits_sound _ _ Ek) as (m' & r' & _ & _ & ->).
  inversion H as [Hn]. rewrite !length_app in Hn. simpl in Hn. lia.
Qed.

(** After a semicolon that follows a greedy match nothing matches either,
    so the match of the rewritten text ends where the rewritten text's own
    [&quot;)] ends. *)
Lemma star_rewritten (gmid rest : jsstring) :
  one_line gmid = true -> star rest = None ->
  star (gmid ++ quot ++ 59%N :: rest)
  = Some (List.length gmid + List.length quot)%nat.
Proof.
  intros Hg Hrest. apply star_app_clean; [exact Hg|].
  assert (H0 : star (59%N :: rest) = None).
  { rewrite match_here_star_cons. change (is_line_terminator 59%N) with false.
    cbv iota. now rewrite Hrest. }
  assert (H1 : star (js ")" ++ 59%N :: rest) = None).
  { change (js ")" ++ 59%N :: rest) with (41%N :: 59%N :: rest).
    rewrite match_here_star_cons. change (is_line_terminator 41%N) with false.
    cbv iota. now rewrite H0. }
  assert (H2 : star (js ";)" ++ 59%N :: rest) = None).
  { change (js ";)" ++ 59%N :: rest) with (59%N :: js ")" ++ 59%N :: rest).
    rewrite match_here_star_cons. change (is_line_terminator 59%N) with false.
    cbv iota. now rewrite H1. }
  assert (H3 : star (js "t;)" ++ 59%N :: rest) = None).
  { change (js "t;)" ++ 59%N :: rest) with (116%N :: js ";)" ++ 59%N :: rest).
    rewrite match_here_star_cons. change (is_line_terminator 116%N) with false.
    cbv iota. now rewrite H2. }
  assert (H4 : star (js "ot;)" ++ 59%N :: rest) = None).
  { change (js "ot;)" ++ 59%N :: rest)
      with (111%N :: js "t;)" ++ 59%N :: rest).
    rewrite match_here_star_cons. change (is_line_terminator 111%N) with false.
    cbv iota. now rewrite H3. }
  assert (H5 : star (js "uot;)" ++ 59%N :: rest) = None).
  { change (js "uot;)" ++ 59%N :: rest)
      with (117%N :: js "ot;)" ++ 59%N :: rest).
    rewrite match_here_star_cons. change (is_line_terminator 117%N) with false.
    cbv iota. now rewrite H4. }
  assert (H6 : star (js "quot;)" ++ 59%N :: rest) = None).
  { change (js "quot;)" ++ 59%N :: rest)
      with (113%N :: js "uot;)" ++ 59%N :: rest).
    rewrite match_here_star_cons. change (is_line_terminator 113%N) with false.
    cbv iota. now rewrite H5. }
  change (quot ++ 59%N :: rest) with (38%N :: js "quot;)" ++ 59%N :: rest).
  rewrite match_here_star_cons. change (is_line_terminator 38%N) with false.
  cbv iota. rewrite H6. reflexivity.
Qed.

(** [&quot;)] holds no [ur]: whether it matches at some place before a
    [ur] does not depend on what follows the [ur]. *)
Lemma quot_blind (s1 r r' : jsstring) :
  match_here (lits quot) (s1 ++ 117%N :: 114%N :: r) =
  match_here (lits quot) (s1 ++ 117%N :: 114%N :: r').
Proof.
  destruct s1 as [|x1 [|x2 [|x3 [|x4 [|x5 [|x6 [|x7 s1]]]]]]]; simpl;
    repeat match goal with
           | |- context [if ?b then _ else _] =>
               destruct b; simpl; try reflexivity
           end; reflexivity.
Qed.

Lemma terminator_not_ampersand (x : code_unit) (s : jsstring) :
  is_line_terminator x = true -> match_here (lits quot) (x :: s) = None.
Proof.
  intros Hx. change (lits quot) with (Lit 38%N :: lits (js "quot;)")).
  rewrite match_here_lit_cons. destruct (N.eqb_spec x 38); [|reflexivity].
  subst x. discriminate Hx.
Qed.

(** No match inside the text before the first match appears when the
    first match is replaced by another text that starts with [ur]. *)
Lemma star_before (t mid rest g : jsstring) :
  one_line mid = true ->
  star (t ++ 117%N :: 114%N :: mid ++ quot ++ rest) = None ->
  star (t ++ 117%N :: 114%N :: g) = None.
Proof.
  intros Hmid. induction t as [|x t IH]; intros H.
  - exfalso. rewrite app_nil_l in H.
    assert (Hone : one_line (117%N :: 114%N :: mid) = true)
      by (simpl; exact Hmid).
    destruct (@star_found (117%N :: 114%N :: mid) rest Hone) as [k Hk].
    rewrite <- !app_comm_cons in Hk.
    enough (E0 : Some k = None) by discriminate.
    rewrite <- Hk. exact H.
  - rewrite <- app_comm_cons in H |- *.
    rewrite match_here_star_cons in H |- *.
    destruct (is_line_terminator x) eqn:Ex.
    + now apply terminator_not_ampersand.
    + destruct (star (t ++ 117%N :: 114%N :: mid ++ quot ++ rest))
        as [k|] eqn:Ek; [discriminate H|].
      rewrite (IH eq_refl).
      change (x :: t ++ 117%N :: 114%N :: g)
        with ((x :: t) ++ 117%N :: 114%N :: g).
      rewrite (quot_blind (x :: t) g (mid ++ quot ++ rest)). exact H.
Qed.

Lemma url_quot_before (t mid rest g : jsstring) :
  t <> [] -> one_line mid = true ->
  match_here url_quot_regex (t ++ js "url" ++ mid ++ quot ++ rest) = None ->
  match_here url_quot_regex (t ++ js "url" ++ g) = None.
Proof.
  intros Ht Hmid.
  change url_quot_regex
    with (Lit 117%N :: Lit 114%N :: Lit 108%N :: DotStar :: lits quot).
  change (js "url" ++ mid ++ quot ++ rest)
    with (117%N :: 114%N :: (108%N :: mid) ++ quot ++ rest).
  change (js "url" ++ g) with (117%N :: 114%N :: 108%N :: g).
  destruct t as [|x [|y [|z t]]]; [contradiction | | |].
  - intros _. rewrite <- !app_comm_cons. rewrite !match_here_lit_cons.
    destruct (x =? 117)%N; reflexivity.
  - intros _. rewrite <- !app_comm_cons. rewrite !match_here_lit_cons.
    destruct (x =? 117)%N, (y =? 114)%N; reflexivity.
  - rewrite <- !app_comm_cons. rewrite !match_here_lit_cons.
    destruct (x =? 117)%N; [|reflexivity].
    destruct (y =? 114)%N; [|reflexivity].
    destruct (z =? 108)%N; [|reflexivity].
    intros H.
    assert (Hone : one_line (108%N :: mid) = true) by (simpl; exact Hmid).
    rewrite (@star_before t (108%N :: mid) rest (108%N :: g) Hone);
      [reflexivity|].
    match type of H with
    | option_map S (option_map S (option_map S ?o)) = None =>
        destruct o eqn:E0; [simpl in H; discriminate H | exact E0]
    end.
Qed.

(** [exec] finds the match at a place before which nothing matches. *)
Lemma exec_at (p : regex) (b s : jsstring) (n : nat) :
  (forall b' r, b ++ s = b' ++ r ->
                (List.length b' < List.length b)%nat ->
                match_here p r = None) ->
  match_here p s = Some n ->
  exec p (b ++ s) = Some (b, firstn n s, skipn n s).
Proof.
  intros Hfirst Hm. induction b as [|c b IH].
  - simpl. destruct s; simpl; now rewrite Hm.
  - simpl. rewrite (Hfirst [] (c :: b ++ s) eq_refl) by (simpl; lia).
    rewrite IH; [reflexivity|].
    intros b' r Hbr Hl. apply (Hfirst (c :: b') r).
    + simpl. now rewrite Hbr.
    + simpl. lia.
Qed.

Lemma split_before (A : Type) (b x b' r : list A) :
  b ++ x = b' ++ r -> (List.length b' < List.length b)%nat ->
  exists t, t <> [] /\ b = b' ++ t /\ r = t ++ x.
Proof.
  revert b'. induction b as [|c b IH]; intros b' H Hl.
  - simpl in Hl. lia.
  - destruct b' as [|c' b'].
    + exists (c :: b). repeat split; [discriminate | now simpl in H].
    + simpl in H. inversion H; subst c'. simpl in Hl.
      destruct (IH b') as (t & Ht & -> & ->); [assumption | lia|].
      exists t. now repeat split.
Qed.

(** The second pass: the rewritten text is matched again, up to its own
    [&quot;)], and replaced by itself; its semicolon stays behind. *)
Lemma url_quot_second_pass (s before m after gmid : jsstring) :
  exec url_quot_regex s = Some (before, m, after) ->
  one_line gmid = true ->
  exec url_quot_regex
       (before ++ (js "url" ++ gmid ++ quot ++ js ";") ++ after)
  = Some (before, js "url" ++ gmid ++ quot, js ";" ++ after).
Proof.
  intros E Hg.
  destruct (@url_quot_match _ _ _ _ E) as (mid & -> & Hmid & Hs).
  apply exec_sound in E. destruct E as (_ & Hm & Hfirst).
  assert (Hrest : star after = None).
  { apply star_greedy with (mid := mid); [exact Hmid|].
    revert Hm.
    change url_quot_regex
      with (Lit 117%N :: Lit 114%N :: Lit 108%N :: DotStar :: lits quot).
    change ((js "url" ++ mid ++ quot) ++ after)
      with (117%N :: 114%N :: 108%N :: (mid ++ quot) ++ after).
    rewrite !match_here_lit_cons. simpl (_ =? _)%N. cbv iota.
    rewrite <- app_assoc.
    destruct (star (mid ++ quot ++ after)) as [k|]; [|discriminate].
    simpl. intros H. inversion H as [Hk]. f_equal.
    rewrite !length_app in Hk. simpl in Hk. rewrite length_app. simpl. lia. }
  pose proof (@star_rewritten gmid after Hg Hrest) as Hstar.
  assert (Hhere : match_here url_quot_regex
                    ((js "url" ++ gmid ++ quot ++ js ";") ++ after)
                  = Some (List.length (js "url" ++ gmid ++ quot))).
  { change url_quot_regex
      with (Lit 117%N :: Lit 114%N :: Lit 108%N :: DotStar :: lits quot).
    replace ((js "url" ++ gmid ++ quot ++ js ";") ++ after)
      with (117%N :: 114%N :: 108%N :: gmid ++ quot ++ 59%N :: after)
      by (simpl; repeat rewrite <- app_assoc; reflexivity).
    rewrite !match_here_lit_cons. simpl (_ =? _)%N. cbv iota.
    rewrite Hstar. simpl. rewrite !length_app. reflexivity. }
  rewrite (@exec_at url_quot_regex before
             ((js "url" ++ gmid ++ quot ++ js ";") ++ after)
             (List.length (js "url" ++ gmid ++ quot))).
  - f_equal. f_equal; [f_equal|].
    + replace ((js "url" ++ gmid ++ quot ++ js ";") ++ after)
        with ((js "url" ++ gmid ++ quot) ++ js ";" ++ after)
        by (repeat rewrite <- app_assoc; reflexivity).
      rewrite firstn_app, Nat.sub_diag, firstn_all. simpl firstn.
      apply app_nil_r.
    + replace ((js "url" ++ gmid ++ quot ++ js ";") ++ after)
        with ((js "url" ++ gmid ++ quot) ++ js ";" ++ after)
        by (repeat rewrite <- app_assoc; reflexivity).
      rewrite skipn_app, Nat.sub_diag, skipn_all. reflexivity.
  - intros b' r Hbr Hl.
    destruct (@split_before _ _ _ _ _ Hbr Hl) as (t & Ht & Hb & ->).
    replace (t ++ (js "url" ++ gmid ++ quot ++ js ";") ++ after)
      with (t ++ js "url" ++ (gmid ++ quot ++ js ";" ++ after))
      by (repeat rewrite <- app_assoc; reflexivity).
    apply url_quot_before with (mid := mid) (rest := after);
      [exact Ht | exact Hmid |].
    apply (Hfirst b').
    + rewrite Hs, Hb. repeat rewrite <- app_assoc. reflexivity.
    + rewrite Hb, length_app.
      destruct t; [contradiction | simpl; lia].
  - exact Hhere.
Qed.

End RegexFacts.

(* ================================================================== *)
(** ** Facts about the encoder *)
(* ================================================================== *)

Module Base64Facts.

Ltac Zify.zify_post_hook ::= Z.to_euclidean_division_equations.

(** Lists by steps of three. *)
Lemma list_ind3 (A : Type) (P : list A -> Prop) :
  P [] -> (forall a, P [a]) -> (forall a b, P [a; b]) ->
  (forall a b c l, P l -> P (a :: b :: c :: l)) ->
  forall l, P l.
Proof.
  intros H0 H1 H2 H3.
  assert (H : forall l, P l /\ (forall a, P (a :: l)) /\
                        (forall a b, P (a :: b :: l))).
  { induction l as [|x l (IH0 & IH1 & IH2)]; repeat split; auto. }
  intros l. apply H.
Qed.

Definition sextet_ok (n : N) : bool :=
  match b64val (b64char n) with
  | Some m => (m =? n)%N && negb (b64char n =? pad)%N
  | None => false
  end.

Lemma sextets_ok : forallb sextet_ok (List.map N.of_nat (seq 0 64)) = true.
Proof. vm_compute. reflexivity. Qed.

(** The alphabet is read back, and no character of it is the padding. *)
Lemma b64val_b64char (n : N) :
  (n < 64)%N ->
  b64val (b64char n) = Some n /\ (b64char n =? pad)%N = false.
Proof.
  intros Hn. pose proof sextets_ok as H. rewrite forallb_forall in H.
  specialize (H n). unfold sextet_ok in H.
  destruct (b64val (b64char n)) as [m|].
  - assert (Hin : In n (List.map N.of_nat (seq 0 64))).
    { apply in_map_iff. exists (N.to_nat n). split; [apply N2Nat.id|].
      apply in_seq. lia. }
    specialize (H Hin). apply andb_true_iff in H. destruct H as [Hm Hp].
    apply N.eqb_eq in Hm. apply negb_true_iff in Hp. now subst.
  - assert (Hin : In n (List.map N.of_nat (seq 0 64))).
    { apply in_map_iff. exists (N.to_nat n). split; [apply N2Nat.id|].
      apply in_seq. lia. }
    specialize (H Hin). discriminate.
Qed.

Ltac sextet n :=
  let H := fresh "Hs" in
  let Hv := fresh "Hv" in
  let Hp := fresh "Hp" in
  assert (H : (n < 64)%N) by lia;
  destruct (b64val_b64char H) as [Hv Hp];
  rewrite ?Hv, ?Hp; clear Hv Hp.

(** Decoding undoes the encoding of bytes. *)
Lemma decode_encode_bytes (l : list N) :
  forallb (fun c => c <=? 255)%N l = true ->
  decode (encode_bytes l) = Some l.
Proof.
  induction l as [| a | a b | a b c l IH] using list_ind3; intros H.
  - reflexivity.
  - simpl in H. rewrite andb_true_r in H. apply N.leb_le in H.
    cbn [encode_bytes decode].
    sextet (a / 4)%N. sextet ((a mod 4) * 16)%N.
    rewrite !N.eqb_refl. do 2 f_equal. lia.
  - simpl in H. rewrite andb_true_r in H. apply andb_true_iff in H.
    destruct H as [Ha Hb]. apply N.leb_le in Ha, Hb.
    cbn [encode_bytes decode].
    sextet (a / 4)%N. sextet ((a mod 4) * 16 + b / 16)%N.
    sextet ((b mod 16) * 4)%N.
    rewrite !N.eqb_refl. f_equal. f_equal; [lia|]. f_equal. lia.
  - cbn [forallb] in H. apply andb_true_iff in H. destruct H as [Ha H].
    apply andb_true_iff in H. destruct H as [Hb H].
    apply andb_true_iff in H. destruct H as [Hc H].
    apply N.leb_le in Ha, Hb, Hc.
    cbn [encode_bytes decode].
    sextet (a / 4)%N. sextet ((a mod 4) * 16 + b / 16)%N.
    sextet ((b mod 16) * 4 + c / 64)%N. sextet (c mod 64)%N.
    rewrite (IH H). f_equal. f_equal; [lia|]. f_equal; [lia|]. f_equal. lia.
Qed.

Lemma btoa_latin1 (s : jsstring) :
  forallb (fun c => c <=? 255)%N s = true -> btoa s = inr (encode_bytes s).
Proof. unfold btoa. now intros ->. Qed.

Lemma btoa_not_latin1 (s : jsstring) :
  forallb (fun c => c <=? 255)%N s = false ->
  btoa s = inl InvalidCharacterError.
Proof. unfold btoa. now intros ->. Qed.

End Base64Facts.

(* ================================================================== *)
(** ** Facts about the document *)
(* ================================================================== *)

Module DomFacts.

(** A node made now is none of the nodes of the body, so detaching it
    gives the body back. *)
Lemma detach_others (n : Node) (l : list Node) :
  Forall (fun m => uid m < uid n)%nat l -> detach n l = l.
Proof.
  induction 1 as [|m l Hm _ IH]; simpl; [reflexivity|].
  unfold is_node at 1. destruct (Nat.eqb_spec (uid n) (uid m)); [lia|].
  simpl. now rewrite IH.
Qed.

Lemma detach_last (n : Node) (l : list Node) :
  Forall (fun m => uid m < uid n)%nat l -> detach n (l ++ [n]) = l.
Proof.
  intros H. unfold detach. rewrite filter_app. fold (detach n l).
  rewrite detach_others by exact H. simpl. unfold is_node.
  rewrite Nat.eqb_refl. simpl. apply app_nil_r.
Qed.

Lemma attached_last (n : Node) (l : list Node) :
  existsb (is_node n) (l ++ [n]) = true.
Proof.
  rewrite existsb_app. simpl. unfold is_node at 2.
  rewrite Nat.eqb_refl. simpl. apply orb_true_r.
Qed.

Lemma find_id_self (id : jsstring) (n : Node) :
  has_id id n = true -> find_id id n = Some n.
Proof. destruct n; simpl. now intros ->. Qed.

(** An element with the id, attached last, makes the lookup succeed. *)
Lemma find_id_list_last (id : jsstring) (n : Node) (l : list Node) :
  has_id id n = true -> exists el, find_id_list id (l ++ [n]) = Some el.
Proof.
  intros H. induction l as [|c l IH]; simpl.
  - rewrite find_id_self by exact H. now exists n.
  - destruct (find_id id c) as [r|]; [now exists r | exact IH].
Qed.

Lemma find_id_list_app (id : jsstring) (l : list Node) (n : Node) :
  find_id_list id (l ++ [n]) =
  match find_id_list id l with
  | Some el => Some el
  | None => find_id id n
  end.
Proof.
  induction l as [|c l IH]; simpl.
  - destruct (find_id id n); reflexivity.
  - destruct (find_id id c); [reflexivity | exact IH].
Qed.

Lemma well_formed_weaken (l : list Node) (k u : nat) :
  Forall (fun n => uid n < k)%nat l -> (k <= u)%nat ->
  Forall (fun n => uid n < u)%nat l.
Proof.
  intros H Hk. eapply Forall_impl; [|exact H]. simpl. intros; lia.
Qed.

End DomFacts.

(* ================================================================== *)
(** ** Facts about numbers *)
(* ================================================================== *)

Module NumberFacts.

(** Integers up to 2^53 are doubles; halving them and subtracting the
    halves is exact while the difference stays in that range. *)
Lemma of_Z_safe (z : Z) :
  (Z.abs z <= 9007199254740992)%Z -> of_Z z = Int z.
Proof.
  intros H. unfold of_Z, safe_bound.
  destruct (Z.leb_spec (Z.abs z) 9007199254740992); [reflexivity | lia].
Qed.

Lemma div2_safe (z : Z) :
  (Z.abs z <= 9007199254740992)%Z -> div2 (Int z) = Halves z.
Proof. intros H. unfold div2. now rewrite of_Z_safe. Qed.

Lemma dsub_safe (x y : Z) :
  (Z.abs (x - y) <= 9007199254740992)%Z ->
  dsub (Halves x) (Halves y) = Halves (x - y).
Proof.
  intros H. unfold dsub, safe_bound.
  destruct (Z.leb_spec (Z.abs (x - y)) 9007199254740992);
    [reflexivity | lia].
Qed.

Lemma Z_toString_nonneg (z : Z) :
  (0 <= z)%Z ->
  Z_toString z = js (NilEmpty.string_of_uint (N.to_uint (Z.to_N z))).
Proof. destruct z; intros H; [reflexivity | reflexivity | lia]. Qed.

Lemma Number_toString_safe (t : Z) :
  (Z.abs t <= 18014398509481984)%Z ->
  Number_toString (Halves t) = half_text t.
Proof.
  intros H. unfold Number_toString, half_text, safe_bound.
  destruct (Z.leb_spec (Z.abs t) (2 * 9007199254740992)); [|lia].
  rewrite Z_toString_nonneg by (apply Z.div_pos; lia).
  replace (Z.odd (Z.abs t)) with (Z.odd t) by (destruct t; reflexivity).
  reflexivity.
Qed.

Lemma ToString_safe (z : Z) :
  (Z.abs z <= 9007199254740992)%Z ->
  ToString (JNum (Int z)) =
  (if (z <? 0)%Z then js "-" else []) ++ Z_toString (Z.abs z).
Proof.
  intros H. unfold ToString, number_value. rewrite of_Z_safe by exact H.
  unfold Number_toString, safe_bound.
  destruct (Z.leb_spec (Z.abs (2 * z)) (2 * 9007199254740992)); [|lia].
  replace (Z.abs (2 * z) / 2)%Z with (Z.abs z)
    by (rewrite Z.abs_mul, Z.mul_comm;
        symmetry; now apply Z.div_mul).
  replace (Z.odd (Z.abs (2 * z))) with false
    by (destruct z; reflexivity).
  replace (2 * z <? 0)%Z with (z <? 0)%Z by (destruct z; reflexivity).
  now rewrite app_nil_r.
Qed.

(** The whole of [(w / 2) - (t / 2)] in that range. *)
Lemma centre_safe (w t : Z) :
  (Z.abs w <= 9007199254740992)%Z ->
  (Z.abs t <= 9007199254740992)%Z ->
  (Z.abs (w - t) <= 9007199254740992)%Z ->
  Number_toString (dsub (div2 (Int w)) (div2 (Int t))) = half_text (w - t).
Proof.
  intros Hw Ht Hd. rewrite !div2_safe by assumption.
  rewrite dsub_safe by exact Hd. apply Number_toString_safe. lia.
Qed.

(** A size of 0 .. 2^31 - 1 is the size the canvas gets; a negative one
    down to -2^31 leaves the canvas its default. *)
Lemma canvas_dimension_in_range (default v : Z) :
  (0 <= v <= 2147483647)%Z -> canvas_dimension default (Int v) = v.
Proof.
  intros H. unfold canvas_dimension, ToUint32.
  rewrite of_Z_safe by lia. rewrite Z.mod_small by lia.
  destruct (Z.leb_spec v 2147483647); [reflexivity | lia].
Qed.

Lemma canvas_dimension_negative (default v : Z) :
  (-2147483648 <= v < 0)%Z -> canvas_dimension default (Int v) = default.
Proof.
  intros H. unfold canvas_dimension, ToUint32.
  rewrite of_Z_safe by lia.
  replace (v mod 4294967296)%Z with (v + 4294967296)%Z.
  - destruct (Z.leb_spec (v + 4294967296) 2147483647); [lia | reflexivity].
  - apply Z.mod_unique with (q := (-1)%Z); lia.
Qed.

End NumberFacts.

(* ================================================================== *)
(** ** Properties of the export helper *)
(* ================================================================== *)

Import JSFacts RegexFacts Base64Facts DomFacts NumberFacts.

Section Effects.

Variable parseTitle : jsstring -> list Node.
Variable layout : list Node -> Node -> Z.
Variable toDataURL : Canvas -> jsstring -> jsstring.

Lemma mounted_title_has_id (title : jsval) (d : Document) :
  has_id (js "britechart_title") (mounted_title parseTitle title d) = true.
Proof. reflexivity. Qed.

(** One run of [getTitleWidth]: it always returns; the width is read
    while the text element is the last child of the body. *)
Lemma getTitleWidth_run (title : jsval) (d : Document) :
  exists el,
    find_id_list (js "britechart_title") (body d ++ [mounted_title parseTitle title d])
    = Some el /\
    getTitleWidth parseTitle layout title d =
    ({| body := detach (mounted_title parseTitle title d)
                       (body d ++ [mounted_title parseTitle title d]);
        next_uid := S (S (next_uid d));
        created := (created d ++ [js "div"]) ++ [js "text"];
        mutations := (mutations d
                      ++ [Inserted (mounted_title parseTitle title d)])
                      ++ [Removed (mounted_title parseTitle title d)];
        downloads := downloads d |},
     inr (offsetWidth layout
            (body d ++ [mounted_title parseTitle title d]) el)).
Proof.
  destruct (find_id_list_last _ _ (body d) (mounted_title_has_id title d))
    as [el Hel].
  exists el. split; [exact Hel|].
  unfold getTitleWidth, createElement, bind, create, ret, appendChild,
    getElementById, remove, set_body.
  cbn [body next_uid created mutations downloads].
  fold (mounted_title parseTitle title d). rewrite Hel.
  cbn [body next_uid created mutations downloads].
  rewrite attached_last. reflexivity.
Qed.

(** C8.  For every title, [getTitleWidth] returns normally: no path of it
    throws once the text element is mounted, and a measurement that gives
    no width (the element found has no [offsetWidth]) returns as well.  The
    run creates two elements, a [div] and the [text] element with the id
    [britechart_title]; the body sees that element inserted as its last
    child and removed again, in this order and nothing else; the width is
    read between the two, with the element mounted; afterwards the body has
    the children it had before the call and nothing was downloaded.  The
    document is taken well formed: its nodes were created earlier. *)
Theorem getTitleWidth_restores_body (title : jsval) (d : Document) :
  well_formed d ->
  exists text titleWidth el,
    uid text = S (next_uid d) /\
    namespaceURI text = HTML /\
    tagName text = js "text" /\
    getAttribute (js "id") (attributes text) = Some (js "britechart_title") /\
    childNodes text = parseTitle (ToString title) /\
    getTitleWidth parseTitle layout title d =
    ({| body := body d;
        next_uid := S (S (next_uid d));
        created := created d ++ [js "div"; js "text"];
        mutations := mutations d ++ [Inserted text; Removed text];
        downloads := downloads d |},
     inr titleWidth) /\
    find_id_list (js "britechart_title") (body d ++ [text]) = Some el /\
    titleWidth = match namespaceURI el with
                 | HTML => Some (layout (body d ++ [text]) el)
                 | SVG => None
                 end.
Proof.
  intros Hwf. destruct (getTitleWidth_run title d) as (el & Hel & Hrun).
  exists (mounted_title parseTitle title d), (offsetWidth layout
            (body d ++ [mounted_title parseTitle title d]) el), el.
  repeat (split; [reflexivity|]).
  split; [|split; [exact Hel | reflexivity]].
  rewrite Hrun. rewrite <- !app_assoc. cbn [app].
  rewrite detach_last; [reflexivity|].
  apply well_formed_weaken with (k := next_uid d); [exact Hwf|].
  simpl. lia.
Qed.

(** One run of [downloadCanvas]. *)
Lemma downloadCanvas_run (canvas : Canvas) (filename extensionType : jsval)
  (d : Document) :
  let name :=
    ToString (match filename with
              | Undefined => JStr (js "britechart.png")
              | v => v
              end) in
  let url :=
    toDataURL canvas
      (ToString (match extensionType with
                 | Undefined => JStr (js "image/png")
                 | v => v
                 end)) in
  downloadCanvas toDataURL canvas filename extensionType d =
  ({| body := detach (download_link url name d)
                     (body d ++ [download_link url name d]);
      next_uid := S (next_uid d);
      created := created d ++ [js "a"];
      mutations := (mutations d ++ [Inserted (download_link url name d)])
                    ++ [Removed (download_link url name d)];
      downloads := downloads d ++
                   [{| dl_name := Some name;
                       dl_href := Some url;
                       dl_attached := true |}] |},
   inr tt).
Proof.
  intros name url.
  unfold downloadCanvas, createElement, bind, create, ret, appendChild,
    click, removeChild, set_body, with_attribute.
  cbn [body next_uid created mutations downloads uid namespaceURI tagName
       attributes childNodes].
  fold name. fold url.
  change (setAttribute (js "download") name
            (setAttribute (js "href") url []))
    with [(js "href", url); (js "download", name)].
  fold (download_link url name d).
  rewrite !attached_last. reflexivity.
Qed.


(** C10.  [handleImageLoad] returns normally and triggers one download;
    with a file name that is [undefined], [null] or the empty string the
    download is named [britechart.png], and with a non-empty file name it
    has exactly that name. *)
Theorem handleImageLoad_download_name (this : Image) (canvas : Canvas)
  (filename : jsval) (e : Event) (d : Document) :
  exists d' r dl,
    handleImageLoad toDataURL this canvas filename e d = (d', inr r) /\
    downloads d' = downloads d ++ [dl] /\
    (filename = Undefined \/ filename = Null \/ filename = JStr [] ->
     dl_name dl = Some (js "britechart.png")) /\
    (forall name, filename = JStr name -> name <> [] ->
                  dl_name dl = Some name).
Proof.
  unfold handleImageLoad, bind. rewrite downloadCanvas_run.
  eexists _, _, _. split; [reflexivity|].
  cbn [downloads]. split; [reflexivity|]. cbn [dl_name]. split.
  - intros [-> | [-> | ->]]; reflexivity.
  - intros name -> Hne. destruct name; [contradiction|]. reflexivity.
Qed.

End Effects.

Section Title.

Variable colors : list jsstring.
Variable parseTitle : jsstring -> list Node.
Variable layout : list Node -> Node -> Z.

(** C5.  Whatever the markup, when the title is absent or empty, or the
    width is absent, [NaN] or zero, [prependTitle] returns the markup as it
    is and leaves the document as it is: nothing is created, mounted or
    measured. *)
Theorem prependTitle_identity (html : jsstring) (title : jsval)
  (svgWidth : option number) (d : Document) :
  ToBoolean title = false \/ absent_or_zero svgWidth = true ->
  prependTitle colors parseTitle layout html title svgWidth d
  = (d, inr html).
Proof.
  unfold prependTitle. destruct svgWidth as [[|s|w]|]; try reflexivity;
    (intros [Ht | Hw]; simpl in *;
     [now rewrite Ht | try discriminate]).
  - now rewrite orb_true_r.
  - rewrite Hw. now rewrite orb_true_r.
Qed.

(** The replacement text, once its [$]-patterns are expanded: only the
    title can hold any when the colour does not. *)
Lemma title_replacement_expanded (m b a : jsstring) (x : dyadic)
  (title : jsstring) :
  no_dollar (colors_6 colors) = true ->
  GetSubstitution m b a (title_replacement colors x title) =
  js "svg" ++ [dq] ++ js ">" ++ [lf] ++ spaces 16 ++
  text_element (Number_toString x) (colors_6 colors)
    ([lf] ++ spaces 20 ++ GetSubstitution m b a title ++ [lf] ++ spaces 16)
  ++ js "<g" ++ [lf] ++ spaces 12.
Proof.
  intros Hc. unfold title_replacement, text_element.
  repeat (rewrite GetSubstitution_plain
            by (reflexivity || exact Hc || apply no_dollar_Number_toString)).
  rewrite GetSubstitution_app by reflexivity.
  rewrite (@GetSubstitution_plain_all m b a ([lf] ++ _)) by reflexivity.
  repeat rewrite <- app_assoc. reflexivity.
Qed.

(** One run of [prependTitle] past its guard: the title is measured, then
    the markup rewritten. *)
Lemma prependTitle_run (html title : jsstring) (svgWidth : number)
  (d : Document) :
  title <> [] -> number_truthy svgWidth = true ->
  exists el d',
    find_id_list (js "britechart_title")
      (body d ++ [mounted_title parseTitle (JStr title) d]) = Some el /\
    getTitleWidth parseTitle layout (JStr title) d
    = (d', inr (offsetWidth layout
                  (body d ++ [mounted_title parseTitle (JStr title) d])
                  el)) /\
    created d' = created d ++ [js "div"; js "text"] /\
    mutations d' =
      mutations d ++ [Inserted (mounted_title parseTitle (JStr title) d);
                      Removed (mounted_title parseTitle (JStr title) d)] /\
    prependTitle colors parseTitle layout html (JStr title)
                 (Some svgWidth) d
    = (d', inr (replace (lits (js "<g"))
                  (title_replacement colors
                     (dsub (div2 svgWidth)
                        (half_width
                           (offsetWidth layout
                              (body d ++
                               [mounted_title parseTitle (JStr title) d])
                              el)))
                     title)
                  html)).
Proof.
  intros Ht Hw.
  destruct (getTitleWidth_run parseTitle layout (JStr title) d)
    as (el & Hel & Hrun).
  eexists el, _. split; [exact Hel|]. split; [exact Hrun|].
  split; [cbn [created]; now rewrite <- app_assoc|].
  split; [cbn [mutations]; now rewrite <- app_assoc|].
  unfold prependTitle. destruct title as [|c title]; [contradiction|].
  rewrite Hw. cbn [ToBoolean negb orb].
  unfold bind. rewrite Hrun. reflexivity.
Qed.

Lemma Int_truthy (w : Z) : w <> 0%Z -> number_truthy (Int w) = true.
Proof. intros H. simpl. apply Z.eqb_neq in H. now rewrite H. Qed.

(** C3 (as the code has it).  For markup that contains the characters
    [<g], a non-empty title and a non-zero integer width, on a page where
    no element has the id [britechart_title] yet, [prependTitle] measures
    the title it mounts and replaces the first [<g] of the markup by the
    replacement text: the characters svg, a double quote and >, then a
    [<text>] element with y = 40, with [x] the decimal text of
    svgWidth/2 - titleWidth/2 and with the seventh grey as fill, then [<g]
    again.  [titleWidth] is the rendered width of the mounted title.  The
    content of the element is the title with its [$]-patterns expanded.
    The colour is taken free of [$]; the two widths and their difference
    are taken within 2^53, where the arithmetic on doubles is exact.  With
    a width of 400 and a measured width of 80, [x] is printed as 160. *)
Theorem prependTitle_injects_text (html title fill : jsstring)
  (svgWidth titleWidth : Z) (d : Document) :
  includes (js "<g") html = true ->
  title <> [] -> svgWidth <> 0%Z ->
  nth_error colors 6 = Some fill -> no_dollar fill = true ->
  find_id_list (js "britechart_title") (body d) = None ->
  layout (body d ++ [mounted_title parseTitle (JStr title) d])
         (mounted_title parseTitle (JStr title) d) = titleWidth ->
  (Z.abs svgWidth <= 9007199254740992)%Z ->
  (Z.abs titleWidth <= 9007199254740992)%Z ->
  (Z.abs (svgWidth - titleWidth) <= 9007199254740992)%Z ->
  exists before after d',
    html = before ++ js "<g" ++ after /\
    (forall p q, html = p ++ js "<g" ++ q ->
                 (List.length before <= List.length p)%nat) /\
    getTitleWidth parseTitle layout (JStr title) d
    = (d', inr (Some titleWidth)) /\
    created d' = created d ++ [js "div"; js "text"] /\
    mutations d' =
      mutations d ++ [Inserted (mounted_title parseTitle (JStr title) d);
                      Removed (mounted_title parseTitle (JStr title) d)] /\
    (inject_Z (svgWidth - titleWidth) / 2 ==
     inject_Z svgWidth / 2 - inject_Z titleWidth / 2)%Q /\
    prependTitle colors parseTitle layout html (JStr title)
                 (Some (Int svgWidth)) d
    = (d', inr (before ++
                js "svg" ++ [dq] ++ js ">" ++ [lf] ++ spaces 16 ++
                text_element
                  (half_text (svgWidth - titleWidth))
                  fill
                  ([lf] ++ spaces 20 ++
                   GetSubstitution (js "<g") before after title ++
                   [lf] ++ spaces 16)
                ++ js "<g" ++ [lf] ++ spaces 12 ++ after)) /\
    half_text (400 - 80) = js "160".
Proof.
  intros Hg Ht Hw Hfill Hc Hpage Hlayout Hsw Htw Hd.
  destruct (@prependTitle_run html title (Int svgWidth) d Ht (Int_truthy Hw))
    as (el & d' & Hel & Hm & Hcr & Hmu & Hrun).
  rewrite find_id_list_app, Hpage in Hel.
  rewrite find_id_self in Hel by apply mounted_title_has_id.
  injection Hel as <-.
  assert (Hoff : offsetWidth layout
                   (body d ++ [mounted_title parseTitle (JStr title) d])
                   (mounted_title parseTitle (JStr title) d)
                 = Some titleWidth).
  { unfold offsetWidth. cbn [namespaceURI mounted_title title_node].
    now rewrite Hlayout. }
  rewrite Hoff in Hm, Hrun.
  assert (Hcol : colors_6 colors = fill)
    by (unfold colors_6; now rewrite Hfill).
  unfold includes, test in Hg.
  destruct (exec (lits (js "<g")) html) as [[[b m] a]|] eqn:E;
    [|discriminate].
  destruct (exec_lits_first _ _ E) as (-> & Hs & Hfirst).
  exists b, a, d'. split; [exact Hs|]. split; [exact Hfirst|].
  split; [exact Hm|]. split; [exact Hcr|]. split; [exact Hmu|].
  split; [|split; [|reflexivity]].
  - unfold Qeq, Qminus, Qdiv, Qplus, Qmult, Qopp, Qinv, inject_Z.
    simpl. lia.
  - rewrite Hrun. unfold replace. rewrite E.
    rewrite title_replacement_expanded by (now rewrite Hcol).
    cbn [half_width]. rewrite centre_safe by assumption. rewrite Hcol.
    do 2 f_equal. repeat rewrite <- app_assoc. reflexivity.
Qed.

(** C7 (as the code has it).  When the markup has no [<g], [prependTitle]
    with a non-empty title and a non-zero width still measures the title
    and then returns the markup as it was given: the title is left out and
    the markup is not altered.  In the same way [addBackground] returns
    markup that has no [>] as it was given. *)
Theorem missing_anchor_leaves_markup (html title : jsstring) (svgWidth : Z)
  (d : Document) :
  (includes (js "<g") html = false ->
   title <> [] -> svgWidth <> 0%Z ->
   exists titleWidth d',
     getTitleWidth parseTitle layout (JStr title) d
     = (d', inr titleWidth) /\
     prependTitle colors parseTitle layout html (JStr title)
                  (Some (Int svgWidth)) d
     = (d', inr html)) /\
  (includes (js ">") html = false -> addBackground html = html).
Proof.
  split.
  - intros Hg Ht Hw.
    destruct (@prependTitle_run html title (Int svgWidth) d Ht (Int_truthy Hw))
      as (el & d' & _ & Hm & _ & _ & Hrun).
    eexists _, d'. split; [exact Hm|]. rewrite Hrun.
    apply includes_false in Hg. now rewrite replace_no_match.
  - intros Hg. apply includes_false in Hg. unfold addBackground.
    now apply replace_no_match.
Qed.

End Title.

(** C6 (as the code has it).  For markup that begins with an opening tag
    [<svg ...>] (no [>] before the one that ends it), [addBackground]
    returns the markup with the rule
    [<style>svg{background:white;}</style>] put right after that tag and
    everything else as it was.  The first 200 characters of the result
    contain the rule when the opening tag and the rule fit in them, that
    is when the opening tag has at most 163 characters. *)
Theorem addBackground_after_opening_tag (attrs rest : jsstring) :
  existsb (N.eqb 62) attrs = false ->
  Config.styleBackgroundString = js "<style>svg{background:white;}</style>" /\
  addBackground (js "<svg" ++ attrs ++ js ">" ++ rest) =
  js "<svg" ++ attrs ++ js ">" ++ Config.styleBackgroundString ++ rest /\
  ((List.length (js "<svg" ++ attrs ++ js ">") <= 163)%nat ->
   includes Config.styleBackgroundString
     (firstn 200 (addBackground (js "<svg" ++ attrs ++ js ">" ++ rest)))
   = true).
Proof.
  intros Hattrs. split; [reflexivity|].
  assert (Hrun : addBackground (js "<svg" ++ attrs ++ js ">" ++ rest) =
                 js "<svg" ++ attrs ++ js ">" ++
                 Config.styleBackgroundString ++ rest).
  { unfold addBackground, replace.
    change (js "<svg" ++ attrs ++ js ">" ++ rest)
      with ((js "<svg" ++ attrs) ++ 62%N :: rest) at 1.
    assert (H : (js "<svg" ++ attrs ++ js ">" ++ rest)
                = (js "<svg" ++ attrs) ++ 62%N :: rest)
      by (now rewrite <- app_assoc).
    rewrite H. change (lits (js ">")) with (lits [62%N]).
    rewrite exec_char.
    - rewrite GetSubstitution_plain_all by reflexivity.
      repeat rewrite <- app_assoc. reflexivity.
    - rewrite existsb_app. apply orb_false_iff.
      split; [reflexivity | exact Hattrs]. }
  split; [exact Hrun|]. intros Hlen. rewrite Hrun.
  apply includes_true.
  exists (js "<svg" ++ attrs ++ js ">"),
         (firstn (200 - List.length (js "<svg" ++ attrs ++ js ">")
                      - List.length Config.styleBackgroundString) rest).
  replace (js "<svg" ++ attrs ++ js ">" ++ Config.styleBackgroundString
           ++ rest)
    with ((js "<svg" ++ attrs ++ js ">") ++ Config.styleBackgroundString
          ++ rest) by (repeat rewrite <- app_assoc; reflexivity).
  rewrite firstn_app.
  rewrite firstn_all2 by lia. f_equal.
  rewrite firstn_app. f_equal.
  apply firstn_all2.
  change (List.length Config.styleBackgroundString) with 37%nat. lia.
Qed.

(** C4 (as the code has it).  For markup whose code units are all at most
    255, [createImage] gives an image whose source is
    [data:image/svg+xml;base64,] followed by a payload, and base64-decoding
    the payload gives the markup back.  For markup with a code unit above
    255 the encoder throws InvalidCharacterError and no source is set. *)
Theorem createImage_data_uri (markup : jsstring) (d : Document) :
  (forallb (fun c => c <=? 255)%N markup = true ->
   exists payload d',
     createImage (JStr markup) d =
     (d', inr {| img_uid := next_uid d;
                 src := Some (js "data:image/svg+xml;base64," ++ payload);
                 onload := None |}) /\
     decode payload = Some markup) /\
  (forallb (fun c => c <=? 255)%N markup = false ->
   exists d', createImage (JStr markup) d = (d', inl InvalidCharacterError)).
Proof.
  unfold createImage, encoder, bind, create, lift, ret. cbn [ToString].
  split.
  - intros H. rewrite (btoa_latin1 _ H).
    eexists _, _. split; [reflexivity|]. now apply decode_encode_bytes.
  - intros H. rewrite (btoa_not_latin1 _ H). eexists. reflexivity.
Qed.

Section Orchestrator.

Variable bowser_name : jsstring.
Variable lineGradientId : jsstring.
Variable colors : list jsstring.
Variable serializer : Node -> jsstring.
Variable parseTitle : jsstring -> list Node.
Variable layout : list Node -> Node -> Z.

(** C1 (what the code does).  Called without a graphic node, [exportChart]
    does not throw, but it does not stop either: [convertSvgToHtml] returns
    [undefined], and the caller goes on to create an image, whose source is
    the base64 text of the word undefined, and a canvas that is given the
    width and the height of the chart.  No link is created and nothing is
    attached to the body. *)
Theorem exportChart_without_node (this : Chart) (filename title : jsval)
  (d : Document) :
  exportChart bowser_name lineGradientId colors serializer parseTitle
              layout this None filename title d =
  ({| body := body d;
      next_uid := S (S (next_uid d));
      created := (created d ++ [js "img"]) ++ [js "canvas"];
      mutations := mutations d;
      downloads := downloads d |},
   inr ({| img_uid := next_uid d;
           src := Some (js "data:image/svg+xml;base64,dW5kZWZpbmVk");
           onload := Some ({| canvas_uid := S (next_uid d);
                              canvas_width :=
                                canvas_dimension 300 (width this);
                              canvas_height :=
                                canvas_dimension 150 (height this);
                              drawn := [] |}, filename) |},
        None)).
Proof. reflexivity. Qed.

End Orchestrator.

(** C2 (as the code has it).  [formatHtmlByBrowser] depends on the
    browser name, the gradient id and the markup only.  For every browser
    name other than Firefox, Chrome among them, it returns the markup as it
    is, and so applying it twice is applying it once.  Under Firefox,
    markup in which [url.*&quot;\)] has no match is returned as it is;
    markup with a match has the first match, a fragment that starts with
    [url], ends with [&quot;)] and stays on one line, replaced by the
    gradient reference (which is [url(&quot;#id&quot;);] for an id
    without [$]).  On such markup a second pass is not the first: for a
    one-line id it matches the reference just written and puts one more
    semicolon after it. *)
Theorem formatHtmlByBrowser_quirks (browser id html : jsstring) :
  (browser <> js "Firefox" ->
   formatHtmlByBrowser browser id html = html /\
   formatHtmlByBrowser browser id (formatHtmlByBrowser browser id html)
   = formatHtmlByBrowser browser id html) /\
  formatHtmlByBrowser (js "Chrome") id html = html /\
  (test url_quot_regex html = false ->
   formatHtmlByBrowser (js "Firefox") id html = html) /\
  (test url_quot_regex html = true ->
   exists before middle after,
     html = before ++ (js "url" ++ middle ++ js "&quot;)") ++ after /\
     one_line middle = true /\
     formatHtmlByBrowser (js "Firefox") id html =
     before ++
     GetSubstitution (js "url" ++ middle ++ js "&quot;)") before after
       (js "url(&quot;#" ++ id ++ js "&quot;);")
     ++ after /\
     (no_dollar id = true ->
      formatHtmlByBrowser (js "Firefox") id html =
      before ++ (js "url(&quot;#" ++ id ++ js "&quot;);") ++ after) /\
     (no_dollar id = true -> one_line id = true ->
      formatHtmlByBrowser (js "Firefox") id
        (formatHtmlByBrowser (js "Firefox") id html) =
      before ++ (js "url(&quot;#" ++ id ++ js "&quot;);") ++ js ";" ++ after
      /\
      formatHtmlByBrowser (js "Firefox") id
        (formatHtmlByBrowser (js "Firefox") id html)
      <> formatHtmlByBrowser (js "Firefox") id html)).
Proof.
  assert (Hother : forall h, browser <> js "Firefox" ->
                             formatHtmlByBrowser browser id h = h).
  { intros h Hb. unfold formatHtmlByBrowser.
    destruct (jsstring_eqb browser (js "Firefox")) eqn:E; [|reflexivity].
    apply jsstring_eqb_eq in E. contradiction. }
  assert (Hfox : forall h, formatHtmlByBrowser (js "Firefox") id h =
                           replace url_quot_regex (gradient_url id) h).
  { intros h. reflexivity. }
  split; [|split; [reflexivity|split]].
  - intros Hb. now rewrite !Hother.
  - unfold test. rewrite Hfox.
    destruct (exec url_quot_regex html) eqn:E; [discriminate|].
    intros _. now apply replace_no_match.
  - unfold test. destruct (exec url_quot_regex html) as [[[b m] a]|] eqn:E;
      [|discriminate].
    intros _. destruct (@url_quot_match _ _ _ _ E) as (mid & Hm & Hmid & Hs).
    exists b, mid, a. split; [exact Hs|]. split; [exact Hmid|].
    assert (Hrun : formatHtmlByBrowser (js "Firefox") id html =
                   b ++ GetSubstitution (js "url" ++ mid ++ js "&quot;)") b a
                          (js "url(&quot;#" ++ id ++ js "&quot;);") ++ a).
    { rewrite Hfox. unfold replace. rewrite E, Hm. reflexivity. }
    assert (Hplain : no_dollar id = true ->
              formatHtmlByBrowser (js "Firefox") id html =
              b ++ (js "url(&quot;#" ++ id ++ js "&quot;);") ++ a).
    { intros Hid. rewrite Hrun.
      rewrite GetSubstitution_plain_all; [reflexivity|].
      rewrite !no_dollar_app, Hid. reflexivity. }
    split; [exact Hrun|]. split; [exact Hplain|].
    intros Hid Hline.
    assert (Hg : one_line (js "(&quot;#" ++ id) = true).
    { unfold one_line in *. rewrite forallb_app, Hline. reflexivity. }
    pose proof (@url_quot_second_pass html b m a (js "(&quot;#" ++ id) E Hg)
      as E2.
    assert (Hshape : js "url" ++ (js "(&quot;#" ++ id) ++ js "&quot;)"
                     ++ js ";"
                     = js "url(&quot;#" ++ id ++ js "&quot;);").
    { simpl. repeat rewrite <- app_assoc. reflexivity. }
    rewrite Hshape in E2.
    assert (Hsecond : formatHtmlByBrowser (js "Firefox") id
                        (formatHtmlByBrowser (js "Firefox") id html) =
                      b ++ (js "url(&quot;#" ++ id ++ js "&quot;);")
                        ++ js ";" ++ a).
    { rewrite (Hplain Hid). rewrite Hfox. unfold replace. rewrite E2.
      rewrite GetSubstitution_plain_all; [reflexivity|].
      unfold gradient_url. rewrite !no_dollar_app, Hid. reflexivity. }
    split; [exact Hsecond|]. rewrite Hsecond, (Hplain Hid). intros Heq.
    apply (f_equal (@List.length code_unit)) in Heq.
    rewrite !length_app in Heq. simpl in Heq. lia.
Qed.

(* ================================================================== *)
(** ** The properties at sample inputs *)
(* ================================================================== *)

Lemma sample_document_well_formed : well_formed sample_document.
Proof. repeat constructor. Defined.

(** The title Revenue is measured at 80 in the sample page: a [div] and
    the [text] element are created, the element is inserted and removed,
    and the page has its one child again afterwards. *)
Lemma getTitleWidth_restores_body_witness :
  well_formed sample_document /\
  exists text titleWidth el,
    uid text = 2%nat /\
    namespaceURI text = HTML /\
    tagName text = js "text" /\
    getAttribute (js "id") (attributes text) = Some (js "britechart_title") /\
    childNodes text = [] /\
    getTitleWidth (fun _ => []) (fun _ _ => 80%Z) (JStr (js "Revenue"))
                  sample_document =
    ({| body := body sample_document;
        next_uid := 3;
        created := [js "div"; js "div"; js "text"];
        mutations := [Inserted text; Removed text];
        downloads := [] |},
     inr titleWidth) /\
    find_id_list (js "britechart_title") (body sample_document ++ [text])
    = Some el /\
    titleWidth = match namespaceURI el with
                 | HTML => Some 80%Z
                 | SVG => None
                 end.
Proof.
  split; [exact sample_document_well_formed|].
  exact (@getTitleWidth_restores_body (fun _ => []) (fun _ _ => 80%Z)
           (JStr (js "Revenue")) sample_document
           sample_document_well_formed).
Defined.


Lemma handleImageLoad_download_name_witness :
  exists d' r dl,
    handleImageLoad (fun _ _ => js "data:image/png;base64,AAAA")
      sample_image sample_canvas (JStr []) load_event
      sample_document = (d', inr r) /\
    downloads d' = downloads sample_document ++ [dl] /\
    dl_name dl = Some (js "britechart.png").
Proof.
  destruct (@handleImageLoad_download_name
              (fun _ _ => js "data:image/png;base64,AAAA")
              sample_image sample_canvas (JStr [])
              load_event sample_document)
    as (d' & r & dl & Hrun & Hdl & Hfalsy & _).
  exists d', r, dl. split; [exact Hrun|]. split; [exact Hdl|].
  apply Hfalsy. right. right. reflexivity.
Defined.

Lemma prependTitle_identity_witness :
  (ToBoolean Undefined = false \/ absent_or_zero (Some (Int 400)) = true) /\
  prependTitle sample_greys (fun _ => []) (fun _ _ => 80%Z)
    (js "<svg><g></g></svg>") Undefined (Some (Int 400)) sample_document
  = (sample_document, inr (js "<svg><g></g></svg>")).
Proof.
  split; [left; reflexivity|].
  apply prependTitle_identity. left. reflexivity.
Defined.

Lemma prependTitle_injects_text_witness :
  includes (js "<g") (js "<svg width=400><g></g></svg>") = true /\
  js "Revenue" <> [] /\ 400%Z <> 0%Z /\
  nth_error sample_greys 6 = Some (js "#777") /\
  no_dollar (js "#777") = true /\
  find_id_list (js "britechart_title") (body sample_document) = None /\
  (Z.abs 400 <= 9007199254740992)%Z /\
  (Z.abs 80 <= 9007199254740992)%Z /\
  (Z.abs (400 - 80) <= 9007199254740992)%Z /\
  exists before after d',
    js "<svg width=400><g></g></svg>" = before ++ js "<g" ++ after /\
    getTitleWidth (fun _ => []) (fun _ _ => 80%Z) (JStr (js "Revenue"))
                  sample_document = (d', inr (Some 80%Z)) /\
    created d' = [js "div"; js "div"; js "text"] /\
    prependTitle sample_greys (fun _ => []) (fun _ _ => 80%Z)
      (js "<svg width=400><g></g></svg>") (JStr (js "Revenue"))
      (Some (Int 400)) sample_document
    = (d', inr (before ++
                js "svg" ++ [dq] ++ js ">" ++ [lf] ++ spaces 16 ++
                text_element (js "160") (js "#777")
                  ([lf] ++ spaces 20 ++
                   GetSubstitution (js "<g") before after (js "Revenue") ++
                   [lf] ++ spaces 16)
                ++ js "<g" ++ [lf] ++ spaces 12 ++ after)).
Proof.
  assert (H1 : includes (js "<g") (js "<svg width=400><g></g></svg>") = true)
    by reflexivity.
  assert (H2 : js "Revenue" <> []) by discriminate.
  assert (H3 : 400%Z <> 0%Z) by discriminate.
  assert (H4 : nth_error sample_greys 6 = Some (js "#777")) by reflexivity.
  assert (H5 : no_dollar (js "#777") = true) by reflexivity.
  assert (H6 : find_id_list (js "britechart_title") (body sample_document)
               = None) by reflexivity.
  assert (H7 : (Z.abs 400 <= 9007199254740992)%Z) by (simpl; lia).
  assert (H8 : (Z.abs 80 <= 9007199254740992)%Z) by (simpl; lia).
  assert (H9 : (Z.abs (400 - 80) <= 9007199254740992)%Z) by (simpl; lia).
  split; [exact H1|]. split; [exact H2|]. split; [exact H3|].
  split; [exact H4|]. split; [exact H5|]. split; [exact H6|].
  split; [exact H7|]. split; [exact H8|]. split; [exact H9|].
  destruct (@prependTitle_injects_text sample_greys (fun _ => [])
              (fun _ _ => 80%Z) (js "<svg width=400><g></g></svg>")
              (js "Revenue") (js "#777") 400 80 sample_document
              H1 H2 H3 H4 H5 H6 eq_refl H7 H8 H9)
    as (b & a & d' & Hs & _ & Hm & Hcr & _ & _ & Hrun & _).
  exists b, a, d'. split; [exact Hs|]. split; [exact Hm|].
  split; [exact Hcr|]. exact Hrun.
Defined.

Lemma missing_anchor_leaves_markup_witness :
  includes (js "<g") (js "<svg></svg>") = false /\
  includes (js ">") (js "no tag here") = false /\
  (exists titleWidth d',
     prependTitle sample_greys (fun _ => []) (fun _ _ => 80%Z)
       (js "<svg></svg>") (JStr (js "Revenue")) (Some (Int 400))
       sample_document = (d', inr (js "<svg></svg>")) /\
     getTitleWidth (fun _ => []) (fun _ _ => 80%Z) (JStr (js "Revenue"))
       sample_document = (d', inr titleWidth)) /\
  addBackground (js "no tag here") = js "no tag here".
Proof.
  assert (H1 : includes (js "<g") (js "<svg></svg>") = false) by reflexivity.
  assert (H2 : includes (js ">") (js "no tag here") = false) by reflexivity.
  assert (H3 : js "Revenue" <> []) by discriminate.
  assert (H4 : 400%Z <> 0%Z) by discriminate.
  split; [exact H1|]. split; [exact H2|]. split.
  - destruct (proj1 (@missing_anchor_leaves_markup sample_greys (fun _ => [])
                       (fun _ _ => 80%Z) (js "<svg></svg>") (js "Revenue")
                       400 sample_document) H1 H3 H4)
      as (tw & d' & Hm & Hrun).
    exists tw, d'. split; [exact Hrun | exact Hm].
  - exact (proj2 (@missing_anchor_leaves_markup sample_greys (fun _ => [])
                    (fun _ _ => 80%Z) (js "no tag here") (js "Revenue")
                    400 sample_document) H2).
Defined.

Lemma addBackground_after_opening_tag_witness :
  existsb (N.eqb 62) (js " width=400") = false /\
  (List.length (js "<svg" ++ js " width=400" ++ js ">") <= 163)%nat /\
  addBackground (js "<svg" ++ js " width=400" ++ js ">" ++ js "<g></g></svg>")
  = js "<svg width=400><style>svg{background:white;}</style><g></g></svg>" /\
  includes Config.styleBackgroundString
    (firstn 200 (addBackground
                   (js "<svg" ++ js " width=400" ++ js ">"
                    ++ js "<g></g></svg>"))) = true.
Proof.
  assert (H1 : existsb (N.eqb 62) (js " width=400") = false) by reflexivity.
  assert (H2 : (List.length (js "<svg" ++ js " width=400" ++ js ">")
                <= 163)%nat) by (simpl; lia).
  split; [exact H1|]. split; [exact H2|].
  destruct (@addBackground_after_opening_tag (js " width=400")
              (js "<g></g></svg>") H1) as (_ & Hrun & Hfirst).
  split; [exact Hrun | exact (Hfirst H2)].
Defined.

Lemma createImage_data_uri_witness :
  forallb (fun c => c <=? 255)%N (js "<svg></svg>") = true /\
  exists payload d',
    createImage (JStr (js "<svg></svg>")) sample_document =
    (d', inr {| img_uid := 1;
                src := Some (js "data:image/svg+xml;base64," ++ payload);
                onload := None |}) /\
    decode payload = Some (js "<svg></svg>").
Proof.
  assert (H : forallb (fun c => c <=? 255)%N (js "<svg></svg>") = true)
    by reflexivity.
  split; [exact H|].
  exact (proj1 (@createImage_data_uri (js "<svg></svg>") sample_document) H).
Defined.

Lemma formatHtmlByBrowser_quirks_witness :
  js "Safari" <> js "Firefox" /\
  test url_quot_regex (js "fill: url(&quot;http://a/#g&quot;) x") = true /\
  no_dollar (js "lineGradientId") = true /\
  formatHtmlByBrowser (js "Safari") (js "lineGradientId")
    (js "fill: url(&quot;http://a/#g&quot;) x")
  = js "fill: url(&quot;http://a/#g&quot;) x" /\
  exists before middle after,
    js "fill: url(&quot;http://a/#g&quot;) x"
    = before ++ (js "url" ++ middle ++ js "&quot;)") ++ after /\
    formatHtmlByBrowser (js "Firefox") (js "lineGradientId")
      (js "fill: url(&quot;http://a/#g&quot;) x")
    = before ++ js "url(&quot;#lineGradientId&quot;);" ++ after.
Proof.
  assert (H1 : js "Safari" <> js "Firefox") by discriminate.
  assert (H2 : test url_quot_regex
                 (js "fill: url(&quot;http://a/#g&quot;) x") = true)
    by reflexivity.
  assert (H3 : no_dollar (js "lineGradientId") = true) by reflexivity.
  destruct (@formatHtmlByBrowser_quirks (js "Safari") (js "lineGradientId")
              (js "fill: url(&quot;http://a/#g&quot;) x"))
    as (Hother & _ & _ & Hmatch).
  split; [exact H1|]. split; [exact H2|]. split; [exact H3|].
  split; [exact (proj1 (Hother H1))|].
  destruct (Hmatch H2) as (b & mid & a & Hs & _ & _ & Hrun & _).
  exists b, mid, a. split; [exact Hs|]. exact (Hrun H3).
Defined.

(** *** Where the specification and the code part *)

(** C2.  Under Firefox a second pass rewrites the reference that the first
    pass wrote and leaves one more semicolon behind it. *)
Lemma formatHtmlByBrowser_not_idempotent :
  formatHtmlByBrowser (js "Firefox") (js "lineGradientId")
    (js "fill: url(&quot;http://a/#g&quot;); x")
  = js "fill: url(&quot;#lineGradientId&quot;);; x" /\
  formatHtmlByBrowser (js "Firefox") (js "lineGradientId")
    (formatHtmlByBrowser (js "Firefox") (js "lineGradientId")
       (js "fill: url(&quot;http://a/#g&quot;); x"))
  = js "fill: url(&quot;#lineGradientId&quot;);;; x" /\
  formatHtmlByBrowser (js "Firefox") (js "lineGradientId")
    (formatHtmlByBrowser (js "Firefox") (js "lineGradientId")
       (js "fill: url(&quot;http://a/#g&quot;); x"))
  <> formatHtmlByBrowser (js "Firefox") (js "lineGradientId")
       (js "fill: url(&quot;http://a/#g&quot;); x").
Proof. split; [reflexivity|]. split; [reflexivity|]. discriminate. Qed.

(** C4.  The euro sign is one code unit, 8364; the encoder refuses it and
    the image gets no source. *)
Lemma createImage_rejects_euro :
  createImage (JStr [8364%N]) empty_document =
  ({| body := []; next_uid := 1; created := [js "img"]; mutations := [];
      downloads := [] |},
   inl InvalidCharacterError).
Proof. reflexivity. Qed.

(** C3.  Four runs where the title does not end up as the specification
    has it.  On a page that already has an element with the id
    [britechart_title], of width 300, the title Revenue, itself 80 wide, is
    put at x = 50 and not at 160: the width used is the page element's.
    When that element is an SVG element it has no [offsetWidth] and x is
    printed as NaN.  In markup whose first [<g] opens a [glyph] element the
    title is put in front of that one, splitting its tag, and not in front
    of the group that follows.  And for a width of 2^54 and a title 81
    wide, x is printed as 9007199254740952, where half the width less half
    the title's width is 9007199254740951.5: the double is rounded. *)
Lemma prependTitle_measures_page_element :
  find_id_list (js "britechart_title")
    (body titled_document ++
     [mounted_title sample_parser (JStr (js "Revenue")) titled_document])
  = Some (mkNode 0 HTML (js "h1") [(js "id", js "britechart_title")] []) /\
  sample_layout
    (body titled_document ++
     [mounted_title sample_parser (JStr (js "Revenue")) titled_document])
    (mounted_title sample_parser (JStr (js "Revenue")) titled_document)
  = 80%Z /\
  half_text (400 - 80) = js "160" /\
  snd (prependTitle sample_greys sample_parser sample_layout
         (js "<svg><g></g></svg>") (JStr (js "Revenue")) (Some (Int 400))
         titled_document)
  = inr (js "<svg>" ++
         js "svg" ++ [dq] ++ js ">" ++ [lf] ++ spaces 16 ++
         text_element (js "50") (js "#777")
           ([lf] ++ spaces 20 ++ js "Revenue" ++ [lf] ++ spaces 16)
         ++ js "<g" ++ [lf] ++ spaces 12 ++ js "></g></svg>") /\
  snd (prependTitle sample_greys sample_parser sample_layout
         (js "<svg><g></g></svg>") (JStr (js "Revenue")) (Some (Int 400))
         charted_document)
  = inr (js "<svg>" ++
         js "svg" ++ [dq] ++ js ">" ++ [lf] ++ spaces 16 ++
         text_element (js "NaN") (js "#777")
           ([lf] ++ spaces 20 ++ js "Revenue" ++ [lf] ++ spaces 16)
         ++ js "<g" ++ [lf] ++ spaces 12 ++ js "></g></svg>") /\
  snd (prependTitle sample_greys sample_parser sample_layout
         (js "<svg><glyph/><g></g></svg>") (JStr (js "Revenue"))
         (Some (Int 400)) sample_document)
  = inr (js "<svg>" ++
         js "svg" ++ [dq] ++ js ">" ++ [lf] ++ spaces 16 ++
         text_element (js "160") (js "#777")
           ([lf] ++ spaces 20 ++ js "Revenue" ++ [lf] ++ spaces 16)
         ++ js "<g" ++ [lf] ++ spaces 12 ++ js "lyph/><g></g></svg>") /\
  find_id_list (js "britechart_title") (body sample_document) = None /\
  half_text (18014398509481984 - 81) = js "9007199254740951.5" /\
  snd (prependTitle sample_greys sample_parser (fun _ _ => 81%Z)
         (js "<svg><g></g></svg>") (JStr (js "Revenue"))
         (Some (Int 18014398509481984)) sample_document)
  = inr (js "<svg>" ++
         js "svg" ++ [dq] ++ js ">" ++ [lf] ++ spaces 16 ++
         text_element (js "9007199254740952") (js "#777")
           ([lf] ++ spaces 20 ++ js "Revenue" ++ [lf] ++ spaces 16)
         ++ js "<g" ++ [lf] ++ spaces 12 ++ js "></g></svg>").
Proof. repeat split; vm_compute; reflexivity. Qed.

(** C6.  An opening tag of 205 characters: the rule comes after the first
    200 characters of the result.  And an opening tag with a [>] inside an
    attribute value: the rule comes after that [>], inside the value. *)
Lemma addBackground_rule_beyond_200 :
  addBackground (js "<svg" ++ spaces 200 ++ js ">" ++ js "</svg>")
  = js "<svg" ++ spaces 200 ++ js ">" ++ Config.styleBackgroundString
    ++ js "</svg>" /\
  includes Config.styleBackgroundString
    (firstn 200
       (addBackground (js "<svg" ++ spaces 200 ++ js ">" ++ js "</svg>")))
  = false /\
  addBackground (js "<svg a=" ++ [dq] ++ js "x>y" ++ [dq] ++ js "></svg>")
  = js "<svg a=" ++ [dq] ++ js "x>" ++ Config.styleBackgroundString
    ++ js "y" ++ [dq] ++ js "></svg>".
Proof. repeat split; vm_compute; reflexivity. Qed.

(** C7.  Markup without [<g] comes back from [prependTitle] character for
    character, and it is as well nested as it went in; so does markup
    without [>] from [addBackground]. *)
Lemma missing_anchor_markup_intact :
  includes (js "<g") (js "<svg><rect/></svg>") = false /\
  snd (prependTitle sample_greys (fun _ => []) (fun _ _ => 80%Z)
         (js "<svg><rect/></svg>") (JStr (js "Revenue")) (Some (Int 400))
         sample_document)
  = inr (js "<svg><rect/></svg>") /\
  well_nested (js "<svg><rect/></svg>") = true /\
  includes (js ">") (js "no tag here") = false /\
  addBackground (js "no tag here") = js "no tag here".
Proof. repeat split; vm_compute; reflexivity. Qed.

(* ================================================================== *)
(** ** Further properties of the helper *)
(* ================================================================== *)

Module AttributeFacts.

(** What was written is what is read. *)
Lemma getAttribute_setAttribute (name value : jsstring)
  (attrs : list (jsstring * jsstring)) :
  getAttribute name (setAttribute name value attrs) = Some value.
Proof.
  induction attrs as [|[k v] attrs IH]; simpl.
  - now rewrite jsstring_eqb_refl.
  - destruct (jsstring_eqb k name) eqn:E; simpl; rewrite E; [reflexivity|].
    exact IH.
Qed.

(** Writing one attribute leaves the others as they are. *)
Lemma getAttribute_setAttribute_other (name other value : jsstring)
  (attrs : list (jsstring * jsstring)) :
  other <> name ->
  getAttribute other (setAttribute name value attrs) = getAttribute other attrs.
Proof.
  intros Hne. induction attrs as [|[k v] attrs IH]; simpl.
  - destruct (jsstring_eqb name other) eqn:E; [|reflexivity].
    apply jsstring_eqb_eq in E. congruence.
  - destruct (jsstring_eqb k name) eqn:E; simpl.
    + apply jsstring_eqb_eq in E. subst k.
      destruct (jsstring_eqb name other) eqn:E'; [|reflexivity].
      apply jsstring_eqb_eq in E'. congruence.
    + destruct (jsstring_eqb k other); [reflexivity | exact IH].
Qed.

(** Writing the value that is there changes nothing. *)
Lemma setAttribute_same (name value : jsstring)
  (attrs : list (jsstring * jsstring)) :
  getAttribute name attrs = Some value ->
  setAttribute name value attrs = attrs.
Proof.
  induction attrs as [|[k v] attrs IH]; simpl; [discriminate|].
  destruct (jsstring_eqb k name) eqn:E.
  - intros H; inversion H. reflexivity.
  - intros H. now rewrite IH.
Qed.

End AttributeFacts.

Import AttributeFacts.

Module ParseFacts.

Lemma uint_value_acc (u : Decimal.uint) (a : positive) :
  uint_value u (Zpos a) = Zpos (Pos.of_uint_acc u a).
Proof.
  revert a. induction u; intros a; cbn [uint_value Pos.of_uint_acc];
    try reflexivity; rewrite <- IHu; f_equal; lia.
Qed.

Lemma uint_value_of_uint (u : Decimal.uint) :
  uint_value u 0 = Z.of_N (Pos.of_uint u).
Proof.
  induction u; cbn [uint_value Pos.of_uint Z.of_N]; try reflexivity;
    try exact IHu; apply (uint_value_acc u).
Qed.

Lemma uint_value_to_uint (p : positive) :
  uint_value (Pos.to_uint p) 0 = Zpos p.
Proof. now rewrite uint_value_of_uint, DecimalPos.Unsigned.of_to. Qed.

(** Reading digits: the digits that were printed are read back onto the
    accumulator. *)
Lemma parse_digits_uint (u : Decimal.uint) (a : Z) (suffix : jsstring) :
  parse_digits 10 (Some a) (js (NilEmpty.string_of_uint u) ++ suffix) =
  parse_digits 10 (Some (uint_value u a)) suffix.
Proof.
  revert a. induction u; intros a; cbn -[Z.mul Z.add]; try reflexivity;
    rewrite IHu;
    repeat match goal with
           | |- context [(Zpos ?x - 48)%Z] =>
               let v := eval compute in (Zpos x - 48)%Z in
               change (Zpos x - 48)%Z with v
           end;
    match goal with
    | |- context [(?k <? 10)%Z] => change (k <? 10)%Z with true
    end;
    cbv iota; do 3 f_equal; lia.
Qed.

Lemma parse_digits_first (u : Decimal.uint) (suffix : jsstring) :
  u <> Decimal.Nil ->
  parse_digits 10 None (js (NilEmpty.string_of_uint u) ++ suffix) =
  parse_digits 10 (Some (uint_value u 0)) suffix.
Proof.
  destruct u; intros Hu; [contradiction| ..]; cbn -[Z.mul Z.add];
    repeat match goal with
           | |- context [(Zpos ?x - 48)%Z] =>
               let v := eval compute in (Zpos x - 48)%Z in
               change (Zpos x - 48)%Z with v
           end;
    match goal with
    | |- context [(?k <? 10)%Z] => change (k <? 10)%Z with true
    end;
    cbv iota; fold (js (NilEmpty.string_of_uint u));
    rewrite parse_digits_uint; reflexivity.
Qed.

(** Reading stops at the first character that is no digit. *)
Lemma parse_digits_stop (a : Z) (suffix : jsstring) :
  ends_number suffix = true -> parse_digits 10 (Some a) suffix = Some a.
Proof.
  destruct suffix as [|c s]; [reflexivity|]. simpl. intros H.
  apply negb_true_iff in H. unfold digit_value. rewrite H.
  destruct ((97 <=? c) && (c <=? 122))%N eqn:E1.
  - apply andb_true_iff in E1. destruct E1 as [E1 _].
    apply N.leb_le in E1.
    destruct (Z.ltb_spec (Z.of_N c - 87) 10); [lia | reflexivity].
  - destruct ((65 <=? c) && (c <=? 90))%N eqn:E2; [|reflexivity].
    apply andb_true_iff in E2. destruct E2 as [E2 _].
    apply N.leb_le in E2.
    destruct (Z.ltb_spec (Z.of_N c - 55) 10); [lia | reflexivity].
Qed.

(** [parseInt] of a text that starts with a digit and is no hexadecimal
    literal: the decimal digits it starts with. *)
Lemma parseInt_digit_start (c : code_unit) (rest : jsstring) :
  (48 <= c <= 57)%N ->
  (c = 48%N -> match rest with
               | x :: _ => x <> 120%N /\ x <> 88%N
               | [] => True
               end) ->
  parseInt (JStr (c :: rest)) =
  match parse_digits 10 None (c :: rest) with
  | Some n => of_Z n
  | None => NaN
  end.
Proof.
  intros Hc Hx. unfold parseInt. cbn [ToString trim_start].
  assert (Hw : is_white_space c = false).
  { apply not_true_is_false. unfold is_white_space. intros H.
    rewrite ?orb_true_iff, ?andb_true_iff, ?N.eqb_eq, ?N.leb_le in H. lia. }
  rewrite Hw.
  assert (H45 : (c =? 45)%N = false) by (apply N.eqb_neq; lia).
  assert (H43 : (c =? 43)%N = false) by (apply N.eqb_neq; lia).
  rewrite H45, H43. cbv beta iota zeta.
  assert (Hcond : match rest with
                  | x :: _ => ((c =? 48) && ((x =? 120) || (x =? 88)))%N
                  | [] => false
                  end = false).
  { destruct rest as [|x r]; [reflexivity|].
    destruct (N.eqb_spec c 48) as [E|E]; [|reflexivity].
    destruct (Hx E) as [H1 H2].
    apply N.eqb_neq in H1, H2. now rewrite H1, H2. }
  destruct rest as [|x r].
  - destruct (parse_digits 10 None [c]) as [n|]; [|reflexivity].
    f_equal. destruct n; reflexivity.
  - rewrite Hcond.
    destruct (parse_digits 10 None (c :: x :: r)) as [n|]; [|reflexivity].
    f_equal. destruct n; reflexivity.
Qed.

(** [parseInt] reads back a positive integer that was printed, whatever
    follows it that is no digit: [px], [%], nothing; the result is the
    double nearest to it. *)
Lemma parseInt_printed (p : positive) (suffix : jsstring) :
  ends_number suffix = true ->
  parseInt (JStr (Z_toString (Zpos p) ++ suffix)) = of_Z (Zpos p).
Proof.
  intros Hs. unfold Z_toString.
  pose proof (DecimalPos.Unsigned.to_uint_nonnil p) as Hnil.
  pose proof (DecimalPos.Unsigned.to_uint_nonzero p) as Hzero.
  pose proof (uint_value_to_uint p) as Hval.
  pose proof (@parse_digits_first (Pos.to_uint p) suffix Hnil) as Hparse.
  rewrite Hval, (@parse_digits_stop (Zpos p) suffix Hs) in Hparse.
  destruct (Pos.to_uint p) as [|u|u|u|u|u|u|u|u|u|u];
    [contradiction | | | | | | | | | |];
    match goal with
    | |- parseInt (JStr (js (NilEmpty.string_of_uint (?D u)) ++ _)) = _ =>
        let c := eval compute in
                   (hd 0%N (js (NilEmpty.string_of_uint (D Decimal.Nil)))) in
        change (js (NilEmpty.string_of_uint (D u)) ++ suffix)
          with (c :: js (NilEmpty.string_of_uint u) ++ suffix) in Hparse |- *
    end;
    (rewrite parseInt_digit_start;
     [ match goal with
       | |- match ?t with _ => _ end = _ =>
           replace t with (Some (Zpos p)) by (symmetry; exact Hparse)
       end; reflexivity
     | lia
     | try (intros E; discriminate E) ]).
  intros _. destruct u; [now elim Hzero | ..]; cbn; split; discriminate.
Qed.

(** The double nearest to a non-zero integer is not zero. *)
Lemma round_to_53_bits_pos (n : Z) : (0 < n)%Z -> (0 < round_to_53_bits n)%Z.
Proof.
  intros Hn. unfold round_to_53_bits, safe_bound.
  destruct (Z.leb_spec n 9007199254740992) as [|Hbig]; [exact Hn|].
  assert (Hlog : (53 <= Z.log2 n)%Z).
  { change 53%Z with (Z.log2 9007199254740992).
    apply Z.log2_le_mono. lia. }
  set (k := (Z.log2 n - 52)%Z).
  assert (Hk : (0 < k)%Z) by (unfold k; lia).
  rewrite !Z.shiftl_mul_pow2 by lia.
  assert (Hq : (0 < Z.shiftr n k)%Z).
  { rewrite Z.shiftr_div_pow2 by lia.
    apply Z.div_str_pos. split; [apply Z.pow_pos_nonneg; lia|].
    apply Z.le_trans with (2 ^ Z.log2 n)%Z.
    - apply Z.pow_le_mono_r; unfold k; lia.
    - apply Z.log2_spec. lia. }
  assert (Hp : (0 < 2 ^ k)%Z) by (apply Z.pow_pos_nonneg; lia).
  destruct ((_ <? _)%Z || _); nia.
Qed.

Lemma of_Z_truthy (z : Z) : z <> 0%Z -> number_truthy (of_Z z) = true.
Proof.
  intros Hz. unfold of_Z.
  destruct (Z.abs z <=? safe_bound)%Z.
  - simpl. apply Z.eqb_neq in Hz. now rewrite Hz.
  - destruct (2 ^ 1024 <=? round_to_53_bits (Z.abs z))%Z; [reflexivity|].
    pose proof (@round_to_53_bits_pos (Z.abs z)) as H.
    cbn [number_truthy]. apply negb_true_iff, Z.eqb_neq. nia.
Qed.

End ParseFacts.

Import ParseFacts.

Section Conversion.

Variable bowser_name : jsstring.
Variable lineGradientId : jsstring.
Variable colors : list jsstring.
Variable serializer : Node -> jsstring.
Variable parseTitle : jsstring -> list Node.
Variable layout : list Node -> Node -> Z.

Local Abbreviation serialized svg :=
  (serialized_markup bowser_name lineGradientId serializer svg).


(** [prependTitle] always returns, triggers no download, and gives the
    body back as it was. *)
Lemma prependTitle_returns (html : jsstring) (title : jsval)
  (svgWidth : option number) (d : Document) :
  exists d' out,
    prependTitle colors parseTitle layout html title svgWidth d
    = (d', inr out) /\
    downloads d' = downloads d /\
    (next_uid d <= next_uid d')%nat /\
    (well_formed d -> body d' = body d).
Proof.
  unfold prependTitle. destruct svgWidth as [w|];
    try (exists d, html; now repeat split).
  destruct (negb (ToBoolean title) || negb (number_truthy w));
    [exists d, html; now repeat split|].
  destruct (getTitleWidth_run parseTitle layout title d)
    as (el & _ & Hrun).
  unfold bind. rewrite Hrun. eexists _, _. split; [reflexivity|].
  split; [reflexivity|]. split; [simpl; lia|].
  intros Hwf. cbn [body]. apply detach_last.
  apply well_formed_weaken with (k := next_uid d); [exact Hwf|].
  simpl. lia.
Qed.

Lemma convertSvgToHtml_unfold (svg : Node) (title : jsval) (d : Document) :
  convertSvgToHtml bowser_name lineGradientId colors serializer parseTitle
                   layout (Some svg) title d =
  match prependTitle colors parseTitle layout (serialized svg) title
          (Some (parseInt (attr_width (set_svg_attributes svg)))) d with
  | (d', inr html) =>
      (d', inr (JStr (addBackground html), Some (set_svg_attributes svg)))
  | (d', inl e) => (d', inl e)
  end.
Proof.
  unfold convertSvgToHtml, bind, serialized_markup.
  destruct (prependTitle _ _ _ _ _ _ d) as [d' [e|html]]; reflexivity.
Qed.


(** X1.  For a node that is there, [convertSvgToHtml] never throws and
    never downloads; it hands the node back with [version] set to 1.1 and
    [xmlns] set to the SVG namespace, every other attribute, the tag and
    the children as they were. *)
Theorem convertSvgToHtml_marks_node (svg : Node) (title : jsval)
  (d : Document) :
  exists d' html,
    convertSvgToHtml bowser_name lineGradientId colors serializer parseTitle
                     layout (Some svg) title d
    = (d', inr (JStr html, Some (set_svg_attributes svg))) /\
    downloads d' = downloads d /\
    getAttribute (js "version") (attributes (set_svg_attributes svg))
    = Some (js "1.1") /\
    getAttribute (js "xmlns") (attributes (set_svg_attributes svg))
    = Some (js "http://www.w3.org/2000/svg") /\
    (forall name, name <> js "version" -> name <> js "xmlns" ->
       getAttribute name (attributes (set_svg_attributes svg))
       = getAttribute name (attributes svg)) /\
    uid (set_svg_attributes svg) = uid svg /\
    tagName (set_svg_attributes svg) = tagName svg /\
    childNodes (set_svg_attributes svg) = childNodes svg.
Proof.
  rewrite convertSvgToHtml_unfold.
  destruct (prependTitle_returns (serialized svg) title
              (Some (parseInt (attr_width (set_svg_attributes svg)))) d)
    as (d' & out & -> & Hd & _ & _).
  exists d', (addBackground out). split; [reflexivity|].
  split; [exact Hd|].
  unfold set_svg_attributes, with_attribute. cbn [attributes uid tagName childNodes].
  split.
  - rewrite getAttribute_setAttribute_other by discriminate.
    apply getAttribute_setAttribute.
  - split; [apply getAttribute_setAttribute|].
    split; [|now repeat split].
    intros name Hv Hx.
    now rewrite !getAttribute_setAttribute_other.
Qed.

(** Marking a marked node changes nothing. *)
Lemma set_svg_attributes_again (svg : Node) :
  set_svg_attributes (set_svg_attributes svg) = set_svg_attributes svg.
Proof.
  unfold set_svg_attributes, with_attribute.
  cbn [attributes uid tagName childNodes]. f_equal.
  rewrite (@setAttribute_same (js "version") (js "1.1")).
  - apply setAttribute_same. apply getAttribute_setAttribute.
  - rewrite getAttribute_setAttribute_other by discriminate.
    apply getAttribute_setAttribute.
Qed.

(** X2.  Converting the node that a conversion handed back gives what
    converting the original node gives, in every document: the same
    markup, the same effects, and the node as it already was. *)
Theorem convertSvgToHtml_again (svg : Node) (title : jsval) (d : Document) :
  convertSvgToHtml bowser_name lineGradientId colors serializer parseTitle
                   layout (Some (set_svg_attributes svg)) title d
  = convertSvgToHtml bowser_name lineGradientId colors serializer parseTitle
                     layout (Some svg) title d.
Proof.
  rewrite !convertSvgToHtml_unfold. unfold serialized_markup.
  now rewrite !set_svg_attributes_again.
Qed.



(** X5.  A node whose [width] attribute is a positive integer of at most
    2^53 in decimal, followed by nothing or by something that is no digit
    ([px], [%]), gets a non-empty title centred on that integer.
    [parseInt] reads the integer; on a page where no element has the id of
    the title yet, the mounted title is measured, and the first [<g] of the
    serialized markup is replaced with the replacement text whose x is the
    decimal text of width/2 - titleWidth/2, before the background rule is
    put in.  The measured width and the difference are taken within 2^53,
    where the arithmetic on doubles is exact. *)
Theorem convertSvgToHtml_centres_on_width (svg : Node) (w : positive)
  (suffix title : jsstring) (titleWidth : Z) (d : Document) :
  getAttribute (js "width") (attributes svg)
  = Some (Z_toString (Zpos w) ++ suffix) ->
  ends_number suffix = true ->
  title <> [] ->
  (Zpos w <= 9007199254740992)%Z ->
  find_id_list (js "britechart_title") (body d) = None ->
  layout (body d ++ [mounted_title parseTitle (JStr title) d])
         (mounted_title parseTitle (JStr title) d) = titleWidth ->
  (Z.abs titleWidth <= 9007199254740992)%Z ->
  (Z.abs (Zpos w - titleWidth) <= 9007199254740992)%Z ->
  exists x d',
    parseInt (JStr (Z_toString (Zpos w) ++ suffix)) = Int (Zpos w) /\
    getTitleWidth parseTitle layout (JStr title) d
    = (d', inr (Some titleWidth)) /\
    Number_toString x = half_text (Zpos w - titleWidth) /\
    convertSvgToHtml bowser_name lineGradientId colors serializer parseTitle
                     layout (Some svg) (JStr title) d
    = (d', inr (JStr (addBackground
                        (replace (lits (js "<g"))
                           (title_replacement colors x title)
                           (serialized svg))),
                Some (set_svg_attributes svg))).
Proof.
  intros Hw Hs Ht Hsafe Hpage Hlayout Htw Hd.
  rewrite convertSvgToHtml_unfold.
  assert (Hattr : attr_width (set_svg_attributes svg)
                  = JStr (Z_toString (Zpos w) ++ suffix)).
  { unfold attr_width, set_svg_attributes, with_attribute.
    cbn [attributes].
    rewrite !getAttribute_setAttribute_other by discriminate.
    now rewrite Hw. }
  assert (Hparse : parseInt (JStr (Z_toString (Zpos w) ++ suffix))
                   = Int (Zpos w)).
  { rewrite (parseInt_printed w suffix Hs). apply of_Z_safe. simpl. lia. }
  rewrite Hattr, Hparse.
  destruct (@prependTitle_run colors parseTitle layout (serialized svg)
              title (Int (Zpos w)) d Ht eq_refl)
    as (el & d' & Hel & Hm & _ & _ & Hrun).
  rewrite find_id_list_app, Hpage in Hel.
  rewrite find_id_self in Hel by apply mounted_title_has_id.
  injection Hel as <-.
  assert (Hoff : offsetWidth layout
                   (body d ++ [mounted_title parseTitle (JStr title) d])
                   (mounted_title parseTitle (JStr title) d)
                 = Some titleWidth).
  { unfold offsetWidth. cbn [namespaceURI mounted_title title_node].
    now rewrite Hlayout. }
  rewrite Hoff in Hm, Hrun.
  exists (dsub (div2 (Int (Zpos w))) (half_width (Some titleWidth))), d'.
  split; [reflexivity|]. split; [exact Hm|]. split.
  - cbn [half_width]. apply centre_safe; [simpl; lia | assumption..].
  - now rewrite Hrun.
Qed.

End Conversion.

Section Pipeline.

Variable bowser_name : jsstring.
Variable lineGradientId : jsstring.
Variable colors : list jsstring.
Variable serializer : Node -> jsstring.
Variable parseTitle : jsstring -> list Node.
Variable layout : list Node -> Node -> Z.
Variable toDataURL : Canvas -> jsstring -> jsstring.

Local Abbreviation convert d3svg title :=
  (convertSvgToHtml bowser_name lineGradientId colors serializer parseTitle
                    layout d3svg title).
Local Abbreviation export this d3svg filename title :=
  (exportChart bowser_name lineGradientId colors serializer parseTitle
               layout this d3svg filename title).

(** One run of [exportChart] after a conversion that gave markup. *)
Lemma exportChart_run (this : Chart) (d3svg : option Node)
  (filename title : jsval) (d d1 : Document) (html : jsstring)
  (svg' : option Node) :
  convert d3svg title d = (d1, inr (JStr html, svg')) ->
  export this d3svg filename title d =
  match encoder html with
  | inr payload =>
      ({| body := body d1;
          next_uid := S (S (next_uid d1));
          created := (created d1 ++ [js "img"]) ++ [js "canvas"];
          mutations := mutations d1;
          downloads := downloads d1 |},
       inr ({| img_uid := next_uid d1;
               src := Some (js "data:image/svg+xml;base64," ++ payload);
               onload := Some (fresh_canvas this d1, filename) |},
            svg'))
  | inl e =>
      ({| body := body d1;
          next_uid := S (next_uid d1);
          created := created d1 ++ [js "img"];
          mutations := mutations d1;
          downloads := downloads d1 |},
       inl e)
  end.
Proof.
  intros Hc. unfold exportChart, bind at 1. rewrite Hc. cbn [fst snd].
  unfold createImage, createCanvas, bind, create, lift, ret.
  cbn [ToString body next_uid created mutations downloads].
  destruct (encoder html); reflexivity.
Qed.

(** X6.  When the converted markup has no code unit above 255,
    [exportChart] returns an image whose source decodes to that markup and
    whose load handler holds a blank canvas and the file name as it was
    passed.  The canvas has the chart's width and height when these are
    integers from 0 to 2^31 - 1; a negative width or height (down to
    -2^31) leaves it 300 wide or 150 high.  On top of what the conversion
    did, the call creates the image and the canvas, attaches nothing and
    downloads nothing. *)
Theorem exportChart_prepares_image (this : Chart) (d3svg : option Node)
  (filename title : jsval) (d d1 : Document) (html : jsstring)
  (svg' : option Node) :
  convert d3svg title d = (d1, inr (JStr html, svg')) ->
  forallb (fun c => c <=? 255)%N html = true ->
  exists d' img payload canvas,
    export this d3svg filename title d = (d', inr (img, svg')) /\
    src img = Some (js "data:image/svg+xml;base64," ++ payload) /\
    decode payload = Some html /\
    onload img = Some (canvas, filename) /\
    canvas_uid canvas = S (next_uid d1) /\
    drawn canvas = [] /\
    (forall w, width this = Int w -> (0 <= w <= 2147483647)%Z ->
               canvas_width canvas = w) /\
    (forall h, height this = Int h -> (0 <= h <= 2147483647)%Z ->
               canvas_height canvas = h) /\
    (forall w, width this = Int w -> (-2147483648 <= w < 0)%Z ->
               canvas_width canvas = 300%Z) /\
    (forall h, height this = Int h -> (-2147483648 <= h < 0)%Z ->
               canvas_height canvas = 150%Z) /\
    body d' = body d1 /\
    downloads d' = downloads d1 /\
    mutations d' = mutations d1 /\
    created d' = (created d1 ++ [js "img"]) ++ [js "canvas"].
Proof.
  intros Hc Hl. rewrite (@exportChart_run this d3svg filename title d d1 html svg' Hc).
  unfold encoder. rewrite (btoa_latin1 _ Hl).
  eexists _, _, _, _. split; [reflexivity|].
  cbn [src onload body downloads created mutations].
  split; [reflexivity|]. split; [now apply decode_encode_bytes|].
  split; [reflexivity|].
  cbn [fresh_canvas canvas_uid drawn canvas_width canvas_height].
  split; [reflexivity|]. split; [reflexivity|].
  split; [intros w -> Hw; now apply canvas_dimension_in_range|].
  split; [intros h -> Hh; now apply canvas_dimension_in_range|].
  split; [intros w -> Hw; now apply canvas_dimension_negative|].
  split; [intros h -> Hh; now apply canvas_dimension_negative|].
  now repeat split.
Qed.

(** X7.  When the converted markup has a code unit above 255,
    [exportChart] throws InvalidCharacterError.  By then the image object
    exists; no canvas is created and nothing is downloaded. *)
Theorem exportChart_rejects_wide_markup (this : Chart) (d3svg : option Node)
  (filename title : jsval) (d d1 : Document) (html : jsstring)
  (svg' : option Node) :
  convert d3svg title d = (d1, inr (JStr html, svg')) ->
  forallb (fun c => c <=? 255)%N html = false ->
  exists d',
    export this d3svg filename title d = (d', inl InvalidCharacterError) /\
    created d' = created d1 ++ [js "img"] /\
    body d' = body d1 /\
    downloads d' = downloads d1.
Proof.
  intros Hc Hl. rewrite (@exportChart_run this d3svg filename title d d1 html svg' Hc).
  unfold encoder. rewrite (btoa_not_latin1 _ Hl).
  eexists. split; [reflexivity|]. now repeat split.
Qed.

(** One run of [handleImageLoad] in a well-formed document. *)
Lemma handleImageLoad_full (this : Image) (canvas : Canvas)
  (filename : jsval) (e : Event) (d : Document) :
  well_formed d ->
  exists d' canvas',
    handleImageLoad toDataURL this canvas filename e d
    = (d', inr (canvas',
                {| cancelable := cancelable e;
                   defaultPrevented := cancelable e || defaultPrevented e |}))
    /\
    drawn canvas' =
      drawn canvas ++
      [(match src this with Some s => s | None => [] end, 0%Z, 0%Z)] /\
    canvas_width canvas' = canvas_width canvas /\
    canvas_height canvas' = canvas_height canvas /\
    body d' = body d /\
    created d' = created d ++ [js "a"] /\
    downloads d' =
      downloads d ++
      [{| dl_name :=
            Some (ToString (or_else filename (JStr (js "britechart.png"))));
          dl_href := Some (toDataURL canvas' (js "image/png"));
          dl_attached := true |}].
Proof.
  intros Hwf. unfold handleImageLoad, bind. rewrite downloadCanvas_run.
  eexists _, _. split; [reflexivity|].
  cbn [drawn canvas_width canvas_height drawImageOnCanvas body created
       downloads].
  split; [reflexivity|]. split; [reflexivity|]. split; [reflexivity|].
  split; [apply detach_last; exact Hwf|]. split; [reflexivity|].
  f_equal. f_equal. f_equal. f_equal.
  unfold or_else, Config.defaultFilename.
  destruct filename as [| |s|n]; try reflexivity.
  - destruct s; reflexivity.
  - cbn [ToBoolean]. destruct (number_truthy n); reflexivity.
Qed.

(** X8.  [handleImageLoad] calls [preventDefault] on the event, which
    sets the canceled flag of a cancelable event and leaves any other
    event, the load event of an image among them, as it is.  It draws the
    image once at the origin of the canvas without changing the canvas's
    size, and only then asks the canvas for its address: the download
    carries the address of the canvas with the image drawn, as
    [image/png].  The link is attached when it is clicked and the body
    has the children it had before. *)
Theorem handleImageLoad_draws_then_downloads (this : Image) (canvas : Canvas)
  (filename : jsval) (e : Event) (d : Document) :
  well_formed d ->
  exists d' canvas' e',
    handleImageLoad toDataURL this canvas filename e d
    = (d', inr (canvas', e')) /\
    cancelable e' = cancelable e /\
    (cancelable e = true -> defaultPrevented e' = true) /\
    (cancelable e = false -> defaultPrevented e' = defaultPrevented e) /\
    drawn canvas' =
      drawn canvas ++
      [(match src this with Some s => s | None => [] end, 0%Z, 0%Z)] /\
    canvas_width canvas' = canvas_width canvas /\
    canvas_height canvas' = canvas_height canvas /\
    body d' = body d /\
    created d' = created d ++ [js "a"] /\
    downloads d' =
      downloads d ++
      [{| dl_name :=
            Some (ToString (or_else filename (JStr (js "britechart.png"))));
          dl_href := Some (toDataURL canvas' (js "image/png"));
          dl_attached := true |}].
Proof.
  intros Hwf.
  destruct (@handleImageLoad_full this canvas filename e d Hwf)
    as (d' & canvas' & Hrun & Hrest).
  eexists d', canvas', _. split; [exact Hrun|].
  cbn [cancelable defaultPrevented]. split; [reflexivity|].
  split; [now intros ->|]. split; [now intros ->|]. exact Hrest.
Qed.


End Pipeline.

Module GreedyFacts.

Local Abbreviation quot := (js "&quot;)").
Local Abbreviation star := (match_here (DotStar :: lits quot)).

Lemma first_line_app (a b : jsstring) :
  one_line a = true -> first_line (a ++ b) = a ++ first_line b.
Proof.
  induction a as [|x a IH]; simpl; [reflexivity|]. intros H.
  apply andb_true_iff in H. destruct H as [Hx Ha].
  apply negb_true_iff in Hx. rewrite Hx. now rewrite IH.
Qed.

(** A [&quot;)] that [.*] can reach lies on the first line. *)
Lemma star_first_line (s : jsstring) (k : nat) :
  star s = Some k -> includes quot (first_line s) = true.
Proof.
  intros H. destruct (star_lits_sound _ _ H) as (mid & rest & -> & Hmid & _).
  assert (Hone : one_line (mid ++ quot) = true).
  { unfold one_line in *. rewrite forallb_app, Hmid. reflexivity. }
  rewrite app_assoc, (@first_line_app (mid ++ quot) rest Hone), <- app_assoc.
  apply includes_true. now exists mid, (first_line rest).
Qed.

(** When nothing can be reached after it, the [&quot;)] at hand is the one
    that is matched. *)
Lemma star_quot_exact (rest : jsstring) :
  star rest = None -> star (quot ++ rest) = Some (List.length quot).
Proof.
  intros H0.
  assert (H1 : star (js ")" ++ rest) = None).
  { change (js ")" ++ rest) with (41%N :: rest).
    rewrite match_here_star_cons. change (is_line_terminator 41%N) with false.
    cbv iota. now rewrite H0. }
  assert (H2 : star (js ";)" ++ rest) = None).
  { change (js ";)" ++ rest) with (59%N :: js ")" ++ rest).
    rewrite match_here_star_cons. change (is_line_terminator 59%N) with false.
    cbv iota. now rewrite H1. }
  assert (H3 : star (js "t;)" ++ rest) = None).
  { change (js "t;)" ++ rest) with (116%N :: js ";)" ++ rest).
    rewrite match_here_star_cons.
    change (is_line_terminator 116%N) with false.
    cbv iota. now rewrite H2. }
  assert (H4 : star (js "ot;)" ++ rest) = None).
  { change (js "ot;)" ++ rest) with (111%N :: js "t;)" ++ rest).
    rewrite match_here_star_cons.
    change (is_line_terminator 111%N) with false.
    cbv iota. now rewrite H3. }
  assert (H5 : star (js "uot;)" ++ rest) = None).
  { change (js "uot;)" ++ rest) with (117%N :: js "ot;)" ++ rest).
    rewrite match_here_star_cons.
    change (is_line_terminator 117%N) with false.
    cbv iota. now rewrite H4. }
  assert (H6 : star (js "quot;)" ++ rest) = None).
  { change (js "quot;)" ++ rest) with (113%N :: js "uot;)" ++ rest).
    rewrite match_here_star_cons.
    change (is_line_terminator 113%N) with false.
    cbv iota. now rewrite H5. }
  change (quot ++ rest) with (38%N :: js "quot;)" ++ rest).
  rewrite match_here_star_cons. change (is_line_terminator 38%N) with false.
  cbv iota. rewrite H6. reflexivity.
Qed.

(** Nothing matches at a place where no [url] starts. *)
Lemma url_quot_needs_url (t x : jsstring) (b' : jsstring) :
  t <> [] ->
  includes (js "url") (b' ++ t) = false ->
  match_here url_quot_regex (t ++ js "url" ++ x) = None.
Proof.
  intros Ht Hb.
  change url_quot_regex
    with (Lit 117%N :: Lit 114%N :: Lit 108%N :: DotStar :: lits quot).
  change (js "url" ++ x) with (117%N :: 114%N :: 108%N :: x).
  destruct t as [|c1 [|c2 [|c3 t]]]; [contradiction | | |];
    rewrite <- ?app_comm_cons; rewrite ?app_nil_l;
    rewrite !match_here_lit_cons.
  - destruct (c1 =? 117)%N; reflexivity.
  - destruct (c1 =? 117)%N, (c2 =? 114)%N; reflexivity.
  - destruct (N.eqb_spec c1 117); [subst c1 | reflexivity].
    destruct (N.eqb_spec c2 114); [subst c2 | reflexivity].
    destruct (N.eqb_spec c3 108); [subst c3 | reflexivity].
    exfalso.
    assert (Hin : includes (js "url") (b' ++ 117%N :: 114%N :: 108%N :: t)
                  = true).
    { apply includes_true. now exists b', t. }
    enough (true = false) by discriminate.
    rewrite <- Hin. exact Hb.
Qed.

(** The match of [/url.*&quot;\)/]: from the first [url] to the last
    [&quot;)] of its line. *)
Lemma url_quot_greedy (before mid after : jsstring) :
  includes (js "url") before = false ->
  one_line mid = true ->
  includes quot (first_line after) = false ->
  exec url_quot_regex (before ++ (js "url" ++ mid ++ quot) ++ after)
  = Some (before, js "url" ++ mid ++ quot, after).
Proof.
  intros Hb Hmid Ha.
  assert (Hrest : star after = None).
  { destruct (star after) as [k|] eqn:E; [|reflexivity].
    rewrite (@star_first_line after k E) in Ha. discriminate. }
  assert (Hstar : star (mid ++ quot ++ after)
                  = Some (List.length mid + List.length quot)%nat).
  { apply star_app_clean; [exact Hmid | now apply star_quot_exact]. }
  assert (Hhere : match_here url_quot_regex
                    ((js "url" ++ mid ++ quot) ++ after)
                  = Some (List.length (js "url" ++ mid ++ quot))).
  { change url_quot_regex
      with (Lit 117%N :: Lit 114%N :: Lit 108%N :: DotStar :: lits quot).
    replace ((js "url" ++ mid ++ quot) ++ after)
      with (117%N :: 114%N :: 108%N :: mid ++ quot ++ after)
      by (simpl; repeat rewrite <- app_assoc; reflexivity).
    rewrite !match_here_lit_cons. simpl (_ =? _)%N. cbv iota.
    rewrite Hstar. simpl. rewrite !length_app. reflexivity. }
  rewrite (@exec_at url_quot_regex before
             ((js "url" ++ mid ++ quot) ++ after)
             (List.length (js "url" ++ mid ++ quot))).
  - f_equal. f_equal; [f_equal|].
    + rewrite firstn_app, Nat.sub_diag, firstn_all. simpl firstn.
      apply app_nil_r.
    + rewrite skipn_app, Nat.sub_diag, skipn_all. reflexivity.
  - intros b' r Hbr Hl.
    destruct (@split_before _ _ _ _ _ Hbr Hl) as (t & Ht & Hbt & ->).
    replace (t ++ (js "url" ++ mid ++ quot) ++ after)
      with (t ++ js "url" ++ (mid ++ quot ++ after))
      by (repeat rewrite <- app_assoc; reflexivity).
    apply url_quot_needs_url with (b' := b'); [exact Ht|].
    now rewrite <- Hbt.
  - exact Hhere.
Qed.

(** No [c] before the first [c]. *)
Lemma first_char_absent (c : code_unit) (s before after : jsstring) :
  s = before ++ [c] ++ after ->
  (forall p q, s = p ++ [c] ++ q -> (List.length before <= List.length p)%nat) ->
  existsb (N.eqb c) before = false.
Proof.
  intros Hs Hfirst. destruct (existsb (N.eqb c) before) eqn:E; [|reflexivity].
  exfalso. apply existsb_exists in E. destruct E as (x & Hin & Hx).
  apply N.eqb_eq in Hx. subst x.
  apply in_split in Hin. destruct Hin as (l1 & l2 & Hb).
  specialize (Hfirst l1 (l2 ++ [c] ++ after)).
  rewrite Hb, length_app in Hfirst. simpl in Hfirst.
  assert (l1 ++ c :: l2 ++ c :: after = l1 ++ [c] ++ l2 ++ [c] ++ after)
    by reflexivity.
  enough (S (List.length l1 + List.length l2) <= List.length l1)%nat by lia.
  rewrite Nat.add_succ_r in Hfirst. apply Hfirst.
  rewrite Hs, Hb. repeat rewrite <- app_assoc. reflexivity.
Qed.

End GreedyFacts.

Import GreedyFacts.

(** X12.  On any markup that has a [>], [addBackground] puts the rule
    after the first [>] and nowhere else, whatever tag that [>] ends: the
    result is 37 characters longer, and a second application puts a second
    copy of the rule after the same [>]. *)
Theorem addBackground_first_gt (html : jsstring) :
  includes (js ">") html = true ->
  exists before after,
    html = before ++ js ">" ++ after /\
    existsb (N.eqb 62) before = false /\
    addBackground html =
      before ++ js ">" ++ Config.styleBackgroundString ++ after /\
    List.length (addBackground html) = (List.length html + 37)%nat /\
    addBackground (addBackground html) =
      before ++ js ">" ++ Config.styleBackgroundString
      ++ Config.styleBackgroundString ++ after.
Proof.
  intros H. unfold includes, test in H.
  destruct (exec (lits (js ">")) html) as [[[b m] a]|] eqn:E; [|discriminate].
  destruct (exec_lits_first _ _ E) as (-> & Hs & Hfirst).
  pose proof (@first_char_absent 62%N html b a Hs Hfirst) as Hb.
  assert (Hrun : forall rest,
            addBackground (b ++ js ">" ++ rest) =
            b ++ js ">" ++ Config.styleBackgroundString ++ rest).
  { intros rest. unfold addBackground, replace.
    match goal with
    | |- context [exec ?p ?s] =>
        replace (exec p s) with (Some (b, [62%N], rest))
          by (symmetry; exact (@exec_char 62%N b rest Hb))
    end.
    rewrite GetSubstitution_plain_all by reflexivity.
    repeat rewrite <- app_assoc. reflexivity. }
  exists b, a. split; [exact Hs|]. split; [exact Hb|].
  clear E Hfirst. subst html. rewrite !Hrun. split; [reflexivity|].
  split; [|reflexivity].
  rewrite !length_app.
  change (List.length Config.styleBackgroundString) with 37%nat. lia.
Qed.

(** X13.  Under Firefox the fragment that is rewritten runs from the first
    [url] of the markup to the last [&quot;)] on that line: whatever lies
    between them on the line, further [url(...)] references included, is
    replaced along with them by the one gradient reference. *)
Theorem formatHtmlByBrowser_greedy (id before middle after : jsstring) :
  includes (js "url") before = false ->
  one_line middle = true ->
  includes (js "&quot;)") (first_line after) = false ->
  no_dollar id = true ->
  formatHtmlByBrowser (js "Firefox") id
    (before ++ (js "url" ++ middle ++ js "&quot;)") ++ after)
  = before ++ (js "url(&quot;#" ++ id ++ js "&quot;);") ++ after.
Proof.
  intros Hb Hm Ha Hid.
  change (formatHtmlByBrowser (js "Firefox") id
            (before ++ (js "url" ++ middle ++ js "&quot;)") ++ after))
    with (replace url_quot_regex (gradient_url id)
            (before ++ (js "url" ++ middle ++ js "&quot;)") ++ after)).
  unfold replace. rewrite (@url_quot_greedy before middle after Hb Hm Ha).
  rewrite GetSubstitution_plain_all; [reflexivity|].
  unfold gradient_url. rewrite !no_dollar_app, Hid. reflexivity.
Qed.

Section Measurement.

Variable colors : list jsstring.
Variable parseTitle : jsstring -> list Node.
Variable layout : list Node -> Node -> Z.
Variable toDataURL : Canvas -> jsstring -> jsstring.

(** X11.  [getTitleWidth] reads the width of the first element of the
    page that has the id [britechart_title].  On a page that already has
    one, that is the page's element and not the title just mounted: its
    rendered width when it is an HTML element, and [undefined] when it is
    an SVG element, which has no [offsetWidth].  On a page without one it
    is the mounted title, an HTML element.  Either way the width is read
    while the title is mounted. *)
Theorem getTitleWidth_measured_element (title : jsval) (d : Document) :
  exists d',
    (forall el,
       find_id_list (js "britechart_title") (body d) = Some el ->
       getTitleWidth parseTitle layout title d =
       (d', inr (match namespaceURI el with
                 | HTML =>
                     Some (layout
                             (body d ++ [mounted_title parseTitle title d])
                             el)
                 | SVG => None
                 end))) /\
    (find_id_list (js "britechart_title") (body d) = None ->
     getTitleWidth parseTitle layout title d =
     (d', inr (Some (layout
                       (body d ++ [mounted_title parseTitle title d])
                       (mounted_title parseTitle title d))))).
Proof.
  destruct (getTitleWidth_run parseTitle layout title d)
    as (el0 & Hel & Hrun).
  eexists. rewrite Hrun. rewrite find_id_list_app in Hel. split.
  - intros el Hfound. rewrite Hfound in Hel. inversion Hel. reflexivity.
  - intros Hnone. rewrite Hnone in Hel.
    rewrite find_id_self in Hel by apply mounted_title_has_id.
    inversion Hel. reflexivity.
Qed.

(** X10.  Called directly, [downloadCanvas] falls back to
    [britechart.png] and [image/png] only for arguments that are
    [undefined]: an empty file name gives a download with an empty name,
    any other string one with that name, [null] one named null, and a type
    given as a string is the type the canvas is asked for.  The call
    returns normally whatever the arguments. *)
Theorem downloadCanvas_defaults (canvas : Canvas)
  (filename extensionType : jsval) (d : Document) :
  exists d' dl,
    downloadCanvas toDataURL canvas filename extensionType d = (d', inr tt) /\
    downloads d' = downloads d ++ [dl] /\
    dl_attached dl = true /\
    (filename = Undefined -> dl_name dl = Some (js "britechart.png")) /\
    (filename = Null -> dl_name dl = Some (js "null")) /\
    (forall name, filename = JStr name -> dl_name dl = Some name) /\
    (extensionType = Undefined ->
     dl_href dl = Some (toDataURL canvas (js "image/png"))) /\
    (extensionType = Null ->
     dl_href dl = Some (toDataURL canvas (js "null"))) /\
    (forall type, extensionType = JStr type ->
                  dl_href dl = Some (toDataURL canvas type)).
Proof.
  rewrite downloadCanvas_run. eexists _, _. split; [reflexivity|].
  cbn [downloads dl_attached dl_name dl_href].
  split; [reflexivity|]. split; [reflexivity|].
  split; [now intros ->|]. split; [now intros ->|].
  split; [now intros name ->|].
  split; [now intros ->|]. split; [now intros ->|]. now intros type ->.
Qed.

(** Text whose [$] signs stand for themselves is copied. *)
Lemma GetSubstitution_literal (m b a t : jsstring) :
  dollars_literal t = true -> GetSubstitution m b a t = t.
Proof.
  induction t as [|c [|c2 r] IH]; intros H.
  - reflexivity.
  - simpl. destruct (c =? dollar)%N; reflexivity.
  - rewrite GetSubstitution_cons2.
    change (dollars_literal (c :: c2 :: r))
      with ((if (c =? dollar)%N then starts_plain (c2 :: r) else true)
            && dollars_literal (c2 :: r)) in H.
    apply andb_true_iff in H. destruct H as [Hc Hr].
    rewrite (IH Hr). destruct (c =? dollar)%N; [|reflexivity].
    simpl in Hc. apply negb_true_iff in Hc.
    apply orb_false_iff in Hc. destruct Hc as [Hc H4].
    apply orb_false_iff in Hc. destruct Hc as [Hc H3].
    apply orb_false_iff in Hc. destruct Hc as [H1 H2].
    now rewrite H1, H2, H3, H4.
Qed.

(** The replacement at a known first [<g], for a title whose [$] signs
    stand for themselves: x is printed from the width of the element that
    the lookup finds. *)
Lemma prependTitle_at (html before m after title : jsstring)
  (svgWidth : number) (d : Document) :
  exec (lits (js "<g")) html = Some (before, m, after) ->
  title <> [] -> dollars_literal title = true ->
  number_truthy svgWidth = true ->
  no_dollar (colors_6 colors) = true ->
  exists el d',
    find_id_list (js "britechart_title")
      (body d ++ [mounted_title parseTitle (JStr title) d]) = Some el /\
    prependTitle colors parseTitle layout html (JStr title)
                 (Some svgWidth) d
    = (d', inr (before ++
                js "svg" ++ [dq] ++ js ">" ++ [lf] ++ spaces 16 ++
                text_element
                  (Number_toString
                     (dsub (div2 svgWidth)
                        (half_width
                           (offsetWidth layout
                              (body d ++
                               [mounted_title parseTitle (JStr title) d])
                              el))))
                  (colors_6 colors)
                  ([lf] ++ spaces 20 ++ title ++ [lf] ++ spaces 16)
                ++ js "<g" ++ [lf] ++ spaces 12 ++ after)).
Proof.
  intros E Ht Hplain Hw Hc.
  destruct (@prependTitle_run colors parseTitle layout html title
              svgWidth d Ht Hw) as (el & d' & Hel & _ & _ & _ & Hrun).
  exists el, d'. split; [exact Hel|].
  rewrite Hrun. unfold replace. rewrite E.
  rewrite title_replacement_expanded by exact Hc.
  rewrite (@GetSubstitution_literal m before after title Hplain).
  do 2 f_equal. repeat rewrite <- app_assoc. reflexivity.
Qed.

Lemma dsub_NotANumber (a : dyadic) : dsub a NotANumber = NotANumber.
Proof. destruct a; reflexivity. Qed.

(** X14.  A title in which every [$] is followed by a character other
    than [$], [&], a backquote or an apostrophe, or ends the title (a
    title without [$], a price such as $5), appears in the markup exactly
    as it was given, unescaped, between the line breaks and indentation of
    the replacement text, in a [<text>] element filled with the seventh
    grey, whatever the position printed as its x; the element is put
    before the first [<g] of the markup, and the markup before and after
    that [<g] is kept. *)
Theorem prependTitle_verbatim (html title fill : jsstring)
  (svgWidth : number) (d : Document) :
  includes (js "<g") html = true ->
  title <> [] -> dollars_literal title = true ->
  number_truthy svgWidth = true ->
  nth_error colors 6 = Some fill -> no_dollar fill = true ->
  exists before after x d',
    html = before ++ js "<g" ++ after /\
    (forall p q, html = p ++ js "<g" ++ q ->
                 (List.length before <= List.length p)%nat) /\
    prependTitle colors parseTitle layout html (JStr title)
                 (Some svgWidth) d
    = (d', inr (before ++
                js "svg" ++ [dq] ++ js ">" ++ [lf] ++ spaces 16 ++
                text_element x fill
                  ([lf] ++ spaces 20 ++ title ++ [lf] ++ spaces 16)
                ++ js "<g" ++ [lf] ++ spaces 12 ++ after)).
Proof.
  intros Hg Ht Hplain Hw Hfill Hc.
  assert (Hcol : colors_6 colors = fill)
    by (unfold colors_6; now rewrite Hfill).
  unfold includes, test in Hg.
  destruct (exec (lits (js "<g")) html) as [[[b m] a]|] eqn:E;
    [|discriminate].
  destruct (exec_lits_first _ _ E) as (_ & Hs & Hfirst).
  destruct (@prependTitle_at html b m a title svgWidth d E Ht Hplain Hw)
    as (el & d' & _ & Hrun); [now rewrite Hcol|].
  eexists b, a, _, d'. split; [exact Hs|]. split; [exact Hfirst|].
  rewrite Hrun, Hcol. reflexivity.
Qed.

(** X16.  On a page that already has an element with the id
    [britechart_title], the title is positioned by that element and not by
    its own width.  When the element is an SVG element, which has no
    [offsetWidth], x is printed as NaN; when it is an HTML element of
    rendered width [w], x is the decimal text of svgWidth/2 - w/2 (the
    widths and their difference taken within 2^53).  The title is still
    put before the first [<g] of the markup. *)
Theorem prependTitle_measures_first_match (html title fill : jsstring)
  (svgWidth : Z) (el : Node) (d : Document) :
  includes (js "<g") html = true ->
  title <> [] -> dollars_literal title = true -> svgWidth <> 0%Z ->
  nth_error colors 6 = Some fill -> no_dollar fill = true ->
  find_id_list (js "britechart_title") (body d) = Some el ->
  exists before after x d',
    html = before ++ js "<g" ++ after /\
    (forall p q, html = p ++ js "<g" ++ q ->
                 (List.length before <= List.length p)%nat) /\
    prependTitle colors parseTitle layout html (JStr title)
                 (Some (Int svgWidth)) d
    = (d', inr (before ++
                js "svg" ++ [dq] ++ js ">" ++ [lf] ++ spaces 16 ++
                text_element x fill
                  ([lf] ++ spaces 20 ++ title ++ [lf] ++ spaces 16)
                ++ js "<g" ++ [lf] ++ spaces 12 ++ after)) /\
    (namespaceURI el = SVG -> x = js "NaN") /\
    (namespaceURI el = HTML ->
     forall w,
       layout (body d ++ [mounted_title parseTitle (JStr title) d]) el = w ->
       (Z.abs svgWidth <= 9007199254740992)%Z ->
       (Z.abs w <= 9007199254740992)%Z ->
       (Z.abs (svgWidth - w) <= 9007199254740992)%Z ->
       x = half_text (svgWidth - w)).
Proof.
  intros Hg Ht Hplain Hw Hfill Hc Hpage.
  assert (Hcol : colors_6 colors = fill)
    by (unfold colors_6; now rewrite Hfill).
  unfold includes, test in Hg.
  destruct (exec (lits (js "<g")) html) as [[[b m] a]|] eqn:E;
    [|discriminate].
  destruct (exec_lits_first _ _ E) as (_ & Hs & Hfirst).
  destruct (@prependTitle_at html b m a title (Int svgWidth) d E Ht Hplain
              (Int_truthy Hw))
    as (el' & d' & Hel & Hrun); [now rewrite Hcol|].
  rewrite find_id_list_app, Hpage in Hel. injection Hel as <-.
  eexists b, a, _, d'. split; [exact Hs|]. split; [exact Hfirst|].
  split; [rewrite Hrun, Hcol; reflexivity|].
  unfold offsetWidth. split.
  - intros ->. cbn [half_width]. now rewrite dsub_NotANumber.
  - intros -> w Hl Hsw Hpw Hd. rewrite Hl. cbn [half_width].
    now apply centre_safe.
Qed.

End Measurement.

Module ShapeFacts.

(** A match is found past a prefix in which no match starts. *)
Lemma exec_skip (p : regex) (b s : jsstring) :
  (forall b' r, b ++ s = b' ++ r ->
                (List.length b' < List.length b)%nat ->
                match_here p r = None) ->
  exec p (b ++ s) =
  match exec p s with
  | Some (x, m, a) => Some (b ++ x, m, a)
  | None => None
  end.
Proof.
  intros Hfirst. induction b as [|c b IH].
  - simpl. destruct (exec p s) as [[[x m] a]|]; reflexivity.
  - simpl. rewrite (Hfirst [] (c :: b ++ s) eq_refl) by (simpl; lia).
    rewrite IH.
    + destruct (exec p s) as [[[x m] a]|]; reflexivity.
    + intros b' r Hbr Hl. apply (Hfirst (c :: b') r).
      * simpl. now rewrite Hbr.
      * simpl. lia.
Qed.

(** No [<g] starts inside an opening tag that holds none. *)
Lemma no_group_in_tag (open_tag inner b' r : jsstring) :
  includes (js "<g") (open_tag ++ js ">") = false ->
  (open_tag ++ js ">") ++ inner = b' ++ r ->
  (List.length b' < List.length (open_tag ++ js ">"))%nat ->
  match_here (lits (js "<g")) r = None.
Proof.
  intros Hno Hbr Hl.
  destruct (@split_before _ _ _ _ _ Hbr Hl) as (t & Ht & Hb & ->).
  change (lits (js "<g")) with (Lit 60%N :: Lit 103%N :: []).
  destruct t as [|c1 [|c2 t]]; [contradiction | |].
  - apply app_inj_tail in Hb. destruct Hb as [_ Hc]. subst c1.
    reflexivity.
  - rewrite <- !app_comm_cons, !match_here_lit_cons.
    destruct (N.eqb_spec c1 60); [subst c1 | reflexivity].
    destruct (N.eqb_spec c2 103); [subst c2 | reflexivity].
    exfalso.
    assert (Hin : includes (js "<g") (open_tag ++ js ">") = true).
    { apply includes_true. exists b', t. exact Hb. }
    enough (true = false) by discriminate.
    rewrite <- Hin. exact Hno.
Qed.

End ShapeFacts.

Import ShapeFacts.

Section Shape.

Variable bowser_name : jsstring.
Variable lineGradientId : jsstring.
Variable colors : list jsstring.
Variable serializer : Node -> jsstring.
Variable parseTitle : jsstring -> list Node.
Variable layout : list Node -> Node -> Z.

(** X15.  The markup of a titled chart.  When the serialized node is an
    opening tag [<svg ...>] followed by content with a [<g], the node has a
    positive integer width and the title's [$] signs stand for
    themselves, the converted markup is: the opening tag, the background
    rule, the content up to its first [<g], the characters svg, double
    quote and >, the [<text>] element with the title and the seventh grey,
    and the content from that [<g] on.  The rule and the title both end up
    inside the [svg] element, the rule first. *)
Theorem convertSvgToHtml_titled_markup (svg : Node) (attrs inner : jsstring)
  (w : positive) (suffix title fill : jsstring) (d : Document) :
  serialized_markup bowser_name lineGradientId serializer svg
  = (js "<svg" ++ attrs ++ js ">") ++ inner ->
  existsb (N.eqb 62) attrs = false ->
  includes (js "<g") (js "<svg" ++ attrs ++ js ">") = false ->
  includes (js "<g") inner = true ->
  getAttribute (js "width") (attributes svg)
  = Some (Z_toString (Zpos w) ++ suffix) ->
  ends_number suffix = true ->
  title <> [] -> dollars_literal title = true ->
  nth_error colors 6 = Some fill -> no_dollar fill = true ->
  exists before after x d',
    inner = before ++ js "<g" ++ after /\
    (forall p q, inner = p ++ js "<g" ++ q ->
                 (List.length before <= List.length p)%nat) /\
    convertSvgToHtml bowser_name lineGradientId colors serializer parseTitle
                     layout (Some svg) (JStr title) d
    = (d', inr (JStr ((js "<svg" ++ attrs ++ js ">") ++
                      Config.styleBackgroundString ++
                      before ++
                      js "svg" ++ [dq] ++ js ">" ++ [lf] ++ spaces 16 ++
                      text_element x fill
                        ([lf] ++ spaces 20 ++ title ++ [lf] ++ spaces 16)
                      ++ js "<g" ++ [lf] ++ spaces 12 ++ after),
                Some (set_svg_attributes svg))).
Proof.
  intros Hser Hattrs Hno Hinner Hw Hs Ht Hplain Hfill Hc.
  assert (Hcol : colors_6 colors = fill)
    by (unfold colors_6; now rewrite Hfill).
  unfold includes, test in Hinner.
  destruct (exec (lits (js "<g")) inner) as [[[ib m] ia]|] eqn:E;
    [|discriminate].
  destruct (exec_lits_first _ _ E) as (-> & Hin & Hfirst).
  assert (Hexec : exec (lits (js "<g"))
                    ((js "<svg" ++ attrs ++ js ">") ++ inner)
                  = Some ((js "<svg" ++ attrs ++ js ">") ++ ib, js "<g", ia)).
  { rewrite exec_skip; [now rewrite E|].
    intros b' r Hbr Hl.
    apply (@no_group_in_tag (js "<svg" ++ attrs) inner b' r).
    - now rewrite <- (app_assoc (js "<svg") attrs (js ">")).
    - now rewrite <- (app_assoc (js "<svg") attrs (js ">")).
    - now rewrite <- (app_assoc (js "<svg") attrs (js ">")). }
  assert (Htruthy : number_truthy (of_Z (Zpos w)) = true)
    by (apply of_Z_truthy; discriminate).
  destruct (@prependTitle_at colors parseTitle layout
              ((js "<svg" ++ attrs ++ js ">") ++ inner)
              ((js "<svg" ++ attrs ++ js ">") ++ ib) (js "<g") ia title
              (of_Z (Zpos w)) d Hexec Ht Hplain Htruthy)
    as (el & d' & _ & Hrun); [now rewrite Hcol|].
  rewrite Hcol in Hrun.
  set (x := Number_toString _) in Hrun.
  exists ib, ia, x, d'. split; [exact Hin|]. split; [exact Hfirst|].
  rewrite convertSvgToHtml_unfold.
  assert (Hattr : attr_width (set_svg_attributes svg)
                  = JStr (Z_toString (Zpos w) ++ suffix)).
  { unfold attr_width, set_svg_attributes, with_attribute.
    cbn [attributes].
    rewrite !getAttribute_setAttribute_other by discriminate.
    now rewrite Hw. }
  rewrite Hattr, (parseInt_printed w suffix Hs), Hser, Hrun.
  do 3 f_equal.
  unfold addBackground, replace.
  match goal with
  | |- context [exec ?p ?s] =>
      replace (exec p s)
        with (Some (js "<svg" ++ attrs, [62%N],
                    ib ++ js "svg" ++ [dq] ++ js ">" ++ [lf] ++ spaces 16 ++
                    text_element x fill
                      ([lf] ++ spaces 20 ++ title ++ [lf] ++ spaces 16)
                    ++ js "<g" ++ [lf] ++ spaces 12 ++ ia))
  end.
  - rewrite GetSubstitution_plain_all by reflexivity.
    repeat rewrite <- app_assoc. reflexivity.
  - symmetry.
    assert (Hgt : existsb (N.eqb 62) (js "<svg" ++ attrs) = false).
    { rewrite existsb_app. apply orb_false_iff.
      split; [reflexivity | exact Hattrs]. }
    rewrite <- (@exec_char 62%N (js "<svg" ++ attrs) _ Hgt).
    f_equal. repeat rewrite <- app_assoc. reflexivity.
Qed.

End Shape.

(* ================================================================== *)
(** ** The further properties at sample inputs *)
(* ================================================================== *)

Lemma titled_document_well_formed : well_formed titled_document.
Proof. repeat constructor. Defined.



Lemma convertSvgToHtml_centres_on_width_witness :
  getAttribute (js "width") (attributes sample_svg)
  = Some (Z_toString 400 ++ js "px") /\
  ends_number (js "px") = true /\
  js "Revenue" <> [] /\
  (400 <= 9007199254740992)%Z /\
  find_id_list (js "britechart_title") (body sample_document) = None /\
  (Z.abs 80 <= 9007199254740992)%Z /\
  (Z.abs (400 - 80) <= 9007199254740992)%Z /\
  exists x d',
    parseInt (JStr (js "400px")) = Int 400 /\
    getTitleWidth sample_parser sample_layout (JStr (js "Revenue"))
                  sample_document = (d', inr (Some 80%Z)) /\
    Number_toString x = js "160" /\
    convertSvgToHtml (js "Chrome") (js "lineGradientId") sample_greys
      sample_serializer sample_parser sample_layout (Some sample_svg)
      (JStr (js "Revenue")) sample_document
    = (d', inr (JStr (addBackground
                        (replace (lits (js "<g"))
                           (title_replacement sample_greys x (js "Revenue"))
                           sample_markup)),
                Some (set_svg_attributes sample_svg))).
Proof.
  assert (H1 : getAttribute (js "width") (attributes sample_svg)
               = Some (Z_toString 400 ++ js "px")) by reflexivity.
  assert (H2 : ends_number (js "px") = true) by reflexivity.
  assert (H3 : js "Revenue" <> []) by discriminate.
  assert (H4 : (400 <= 9007199254740992)%Z) by lia.
  assert (H5 : find_id_list (js "britechart_title") (body sample_document)
               = None) by reflexivity.
  assert (H6 : (Z.abs 80 <= 9007199254740992)%Z) by (simpl; lia).
  assert (H7 : (Z.abs (400 - 80) <= 9007199254740992)%Z) by (simpl; lia).
  repeat (split; [assumption|]).
  exact (@convertSvgToHtml_centres_on_width (js "Chrome")
           (js "lineGradientId") sample_greys sample_serializer
           sample_parser sample_layout sample_svg 400%positive (js "px")
           (js "Revenue") 80 sample_document H1 H2 H3 H4 H5 eq_refl H6 H7).
Defined.

Lemma exportChart_prepares_image_witness :
  convertSvgToHtml (js "Chrome") (js "lineGradientId") sample_greys
    sample_serializer sample_parser sample_layout (Some sample_svg)
    Undefined sample_document
  = (sample_document,
     inr (JStr (addBackground sample_markup),
          Some (set_svg_attributes sample_svg))) /\
  forallb (fun c => c <=? 255)%N (addBackground sample_markup) = true /\
  exists d' img payload canvas,
    exportChart (js "Chrome") (js "lineGradientId") sample_greys
      sample_serializer sample_parser sample_layout sample_chart
      (Some sample_svg) (JStr (js "sales.png")) Undefined sample_document
    = (d', inr (img, Some (set_svg_attributes sample_svg))) /\
    src img = Some (js "data:image/svg+xml;base64," ++ payload) /\
    decode payload = Some (addBackground sample_markup) /\
    onload img = Some (canvas, JStr (js "sales.png")) /\
    canvas_width canvas = 400%Z /\
    canvas_height canvas = 200%Z.
Proof.
  assert (H1 : convertSvgToHtml (js "Chrome") (js "lineGradientId")
                 sample_greys sample_serializer sample_parser sample_layout
                 (Some sample_svg) Undefined sample_document
               = (sample_document,
                  inr (JStr (addBackground sample_markup),
                       Some (set_svg_attributes sample_svg))))
    by reflexivity.
  assert (H2 : forallb (fun c => c <=? 255)%N (addBackground sample_markup)
               = true) by reflexivity.
  split; [exact H1|]. split; [exact H2|].
  destruct (@exportChart_prepares_image (js "Chrome") (js "lineGradientId")
              sample_greys sample_serializer sample_parser sample_layout
              sample_chart (Some sample_svg) (JStr (js "sales.png"))
              Undefined sample_document sample_document
              (addBackground sample_markup)
              (Some (set_svg_attributes sample_svg)) H1 H2)
    as (d' & img & payload & canvas & Hrun & Hsrc & Hdec & Hon & _ & _
        & Hw & Hh & _).
  exists d', img, payload, canvas.
  split; [exact Hrun|]. split; [exact Hsrc|]. split; [exact Hdec|].
  split; [exact Hon|].
  split; [apply (Hw 400%Z eq_refl); lia | apply (Hh 200%Z eq_refl); lia].
Defined.

Lemma exportChart_rejects_wide_markup_witness :
  convertSvgToHtml (js "Chrome") (js "lineGradientId") sample_greys
    wide_serializer sample_parser sample_layout (Some sample_svg)
    Undefined sample_document
  = (sample_document,
     inr (JStr (addBackground (wide_serializer sample_svg)),
          Some (set_svg_attributes sample_svg))) /\
  forallb (fun c => c <=? 255)%N (addBackground (wide_serializer sample_svg))
  = false /\
  exists d',
    exportChart (js "Chrome") (js "lineGradientId") sample_greys
      wide_serializer sample_parser sample_layout sample_chart
      (Some sample_svg) Undefined Undefined sample_document
    = (d', inl InvalidCharacterError) /\
    created d' = created sample_document ++ [js "img"].
Proof.
  assert (H1 : convertSvgToHtml (js "Chrome") (js "lineGradientId")
                 sample_greys wide_serializer sample_parser sample_layout
                 (Some sample_svg) Undefined sample_document
               = (sample_document,
                  inr (JStr (addBackground (wide_serializer sample_svg)),
                       Some (set_svg_attributes sample_svg))))
    by reflexivity.
  assert (H2 : forallb (fun c => c <=? 255)%N
                 (addBackground (wide_serializer sample_svg)) = false)
    by reflexivity.
  split; [exact H1|]. split; [exact H2|].
  destruct (@exportChart_rejects_wide_markup (js "Chrome")
              (js "lineGradientId") sample_greys wide_serializer
              sample_parser sample_layout sample_chart (Some sample_svg)
              Undefined Undefined sample_document sample_document
              (addBackground (wide_serializer sample_svg))
              (Some (set_svg_attributes sample_svg)) H1 H2)
    as (d' & Hrun & Hcreated & _).
  exists d'. split; [exact Hrun | exact Hcreated].
Defined.

Lemma handleImageLoad_draws_then_downloads_witness :
  well_formed sample_document /\
  exists d' canvas' e',
    handleImageLoad sample_toDataURL sample_image sample_canvas Null
      load_event sample_document
    = (d', inr (canvas', e')) /\
    defaultPrevented e' = false /\
    drawn canvas' = [(js "data:image/svg+xml;base64,", 0%Z, 0%Z)] /\
    body d' = body sample_document /\
    downloads d' =
      [{| dl_name := Some (js "britechart.png");
          dl_href := Some (js "data:image/png;base64,data:image/svg+xml;base64,");
          dl_attached := true |}].
Proof.
  split; [exact sample_document_well_formed|].
  destruct (@handleImageLoad_draws_then_downloads sample_toDataURL
              sample_image sample_canvas Null load_event
              sample_document sample_document_well_formed)
    as (d' & canvas' & e' & Hrun & _ & _ & He & Hdrawn & _ & _ & Hbody & _
        & Hdl).
  exists d', canvas', e'. split; [exact Hrun|].
  split; [exact (He eq_refl)|]. split; [exact Hdrawn|].
  split; [exact Hbody|]. rewrite Hdl. unfold sample_toDataURL.
  rewrite Hdrawn. reflexivity.
Defined.


Lemma downloadCanvas_defaults_witness :
  exists d' dl,
    downloadCanvas sample_toDataURL sample_canvas (JStr [])
      (JStr (js "image/jpeg")) sample_document = (d', inr tt) /\
    downloads d' = downloads sample_document ++ [dl] /\
    dl_name dl = Some [] /\
    dl_href dl = Some (js "data:image/jpeg;base64,").
Proof.
  destruct (@downloadCanvas_defaults sample_toDataURL sample_canvas
              (JStr []) (JStr (js "image/jpeg")) sample_document)
    as (d' & dl & Hrun & Hdl & _ & _ & _ & Hname & _ & _ & Hhref).
  exists d', dl. split; [exact Hrun|]. split; [exact Hdl|].
  split; [exact (Hname [] eq_refl) | exact (Hhref (js "image/jpeg") eq_refl)].
Defined.

Lemma getTitleWidth_measured_element_witness :
  find_id_list (js "britechart_title") (body titled_document)
  = Some (mkNode 0 HTML (js "h1") [(js "id", js "britechart_title")] []) /\
  find_id_list (js "britechart_title") (body charted_document)
  = Some (mkNode 0 SVG (js "text") [(js "id", js "britechart_title")] []) /\
  find_id_list (js "britechart_title") (body sample_document) = None /\
  (exists d',
     getTitleWidth sample_parser sample_layout (JStr (js "Revenue"))
                   titled_document = (d', inr (Some 300%Z))) /\
  (exists d',
     getTitleWidth sample_parser sample_layout (JStr (js "Revenue"))
                   charted_document = (d', inr None)) /\
  (exists d',
     getTitleWidth sample_parser sample_layout (JStr (js "Revenue"))
                   sample_document = (d', inr (Some 80%Z))).
Proof.
  assert (H1 : find_id_list (js "britechart_title") (body titled_document)
               = Some (mkNode 0 HTML (js "h1")
                         [(js "id", js "britechart_title")] []))
    by reflexivity.
  assert (H2 : find_id_list (js "britechart_title") (body charted_document)
               = Some (mkNode 0 SVG (js "text")
                         [(js "id", js "britechart_title")] []))
    by reflexivity.
  assert (H3 : find_id_list (js "britechart_title") (body sample_document)
               = None) by reflexivity.
  split; [exact H1|]. split; [exact H2|]. split; [exact H3|].
  split; [|split].
  - destruct (@getTitleWidth_measured_element sample_parser sample_layout
                (JStr (js "Revenue")) titled_document) as (d' & Hsome & _).
    exists d'. exact (Hsome _ H1).
  - destruct (@getTitleWidth_measured_element sample_parser sample_layout
                (JStr (js "Revenue")) charted_document) as (d' & Hsome & _).
    exists d'. exact (Hsome _ H2).
  - destruct (@getTitleWidth_measured_element sample_parser sample_layout
                (JStr (js "Revenue")) sample_document) as (d' & _ & Hnone).
    exists d'. exact (Hnone H3).
Defined.

Lemma addBackground_first_gt_witness :
  includes (js ">") (js "<?xml version='1.0'?><svg></svg>") = true /\
  exists before after,
    js "<?xml version='1.0'?><svg></svg>" = before ++ js ">" ++ after /\
    addBackground (js "<?xml version='1.0'?><svg></svg>") =
      before ++ js ">" ++ Config.styleBackgroundString ++ after /\
    List.length (addBackground (js "<?xml version='1.0'?><svg></svg>"))
    = (List.length (js "<?xml version='1.0'?><svg></svg>") + 37)%nat.
Proof.
  assert (H : includes (js ">") (js "<?xml version='1.0'?><svg></svg>")
              = true) by reflexivity.
  split; [exact H|].
  destruct (@addBackground_first_gt (js "<?xml version='1.0'?><svg></svg>") H)
    as (b & a & Hs & _ & Hrun & Hlen & _).
  exists b, a. split; [exact Hs|]. split; [exact Hrun | exact Hlen].
Defined.

Lemma formatHtmlByBrowser_greedy_witness :
  includes (js "url") (js "fill: ") = false /\
  one_line (js "(&quot;#a&quot;); stroke: url(&quot;#b") = true /\
  includes (js "&quot;)") (first_line (js "; x")) = false /\
  no_dollar (js "lineGradientId") = true /\
  formatHtmlByBrowser (js "Firefox") (js "lineGradientId")
    (js "fill: url(&quot;#a&quot;); stroke: url(&quot;#b&quot;); x")
  = js "fill: url(&quot;#lineGradientId&quot;);; x".
Proof.
  assert (H1 : includes (js "url") (js "fill: ") = false) by reflexivity.
  assert (H2 : one_line (js "(&quot;#a&quot;); stroke: url(&quot;#b") = true)
    by reflexivity.
  assert (H3 : includes (js "&quot;)") (first_line (js "; x")) = false)
    by reflexivity.
  assert (H4 : no_dollar (js "lineGradientId") = true) by reflexivity.
  split; [exact H1|]. split; [exact H2|]. split; [exact H3|].
  split; [exact H4|].
  exact (@formatHtmlByBrowser_greedy (js "lineGradientId") (js "fill: ")
           (js "(&quot;#a&quot;); stroke: url(&quot;#b") (js "; x")
           H1 H2 H3 H4).
Defined.

Lemma prependTitle_verbatim_witness :
  includes (js "<g") sample_markup = true /\
  js "Sales in $" <> [] /\
  dollars_literal (js "Sales in $") = true /\
  number_truthy (Int 400) = true /\
  nth_error sample_greys 6 = Some (js "#777") /\
  no_dollar (js "#777") = true /\
  exists before after x d',
    sample_markup = before ++ js "<g" ++ after /\
    prependTitle sample_greys sample_parser sample_layout sample_markup
      (JStr (js "Sales in $")) (Some (Int 400)) sample_document
    = (d', inr (before ++
                js "svg" ++ [dq] ++ js ">" ++ [lf] ++ spaces 16 ++
                text_element x (js "#777")
                  ([lf] ++ spaces 20 ++ js "Sales in $" ++ [lf] ++ spaces 16)
                ++ js "<g" ++ [lf] ++ spaces 12 ++ after)).
Proof.
  assert (H1 : includes (js "<g") sample_markup = true) by reflexivity.
  assert (H2 : js "Sales in $" <> []) by discriminate.
  assert (H3 : dollars_literal (js "Sales in $") = true) by reflexivity.
  assert (H4 : number_truthy (Int 400) = true) by reflexivity.
  assert (H5 : nth_error sample_greys 6 = Some (js "#777")) by reflexivity.
  assert (H6 : no_dollar (js "#777") = true) by reflexivity.
  split; [exact H1|]. split; [exact H2|]. split; [exact H3|].
  split; [exact H4|]. split; [exact H5|]. split; [exact H6|].
  destruct (@prependTitle_verbatim sample_greys sample_parser sample_layout
              sample_markup (js "Sales in $") (js "#777") (Int 400)
              sample_document H1 H2 H3 H4 H5 H6)
    as (b & a & x & d' & Hs & _ & Hrun).
  exists b, a, x, d'. split; [exact Hs | exact Hrun].
Defined.

Lemma convertSvgToHtml_titled_markup_witness :
  serialized_markup (js "Chrome") (js "lineGradientId") sample_serializer
                    sample_svg
  = (js "<svg" ++ js " width=400" ++ js ">") ++ js "<g></g></svg>" /\
  existsb (N.eqb 62) (js " width=400") = false /\
  includes (js "<g") (js "<svg" ++ js " width=400" ++ js ">") = false /\
  includes (js "<g") (js "<g></g></svg>") = true /\
  getAttribute (js "width") (attributes sample_svg)
  = Some (Z_toString 400 ++ js "px") /\
  ends_number (js "px") = true /\
  js "Revenue" <> [] /\ dollars_literal (js "Revenue") = true /\
  nth_error sample_greys 6 = Some (js "#777") /\
  no_dollar (js "#777") = true /\
  exists before after x d',
    js "<g></g></svg>" = before ++ js "<g" ++ after /\
    convertSvgToHtml (js "Chrome") (js "lineGradientId") sample_greys
      sample_serializer sample_parser sample_layout (Some sample_svg)
      (JStr (js "Revenue")) sample_document
    = (d', inr (JStr ((js "<svg" ++ js " width=400" ++ js ">") ++
                      Config.styleBackgroundString ++
                      before ++
                      js "svg" ++ [dq] ++ js ">" ++ [lf] ++ spaces 16 ++
                      text_element x (js "#777")
                        ([lf] ++ spaces 20 ++ js "Revenue" ++ [lf]
                         ++ spaces 16)
                      ++ js "<g" ++ [lf] ++ spaces 12 ++ after),
                Some (set_svg_attributes sample_svg))).
Proof.
  assert (H1 : serialized_markup (js "Chrome") (js "lineGradientId")
                 sample_serializer sample_svg
               = (js "<svg" ++ js " width=400" ++ js ">")
                 ++ js "<g></g></svg>") by reflexivity.
  assert (H2 : existsb (N.eqb 62) (js " width=400") = false) by reflexivity.
  assert (H3 : includes (js "<g") (js "<svg" ++ js " width=400" ++ js ">")
               = false) by reflexivity.
  assert (H4 : includes (js "<g") (js "<g></g></svg>") = true)
    by reflexivity.
  assert (H5 : getAttribute (js "width") (attributes sample_svg)
               = Some (Z_toString 400 ++ js "px")) by reflexivity.
  assert (H6 : ends_number (js "px") = true) by reflexivity.
  assert (H7 : js "Revenue" <> []) by discriminate.
  assert (H8 : dollars_literal (js "Revenue") = true) by reflexivity.
  assert (H9 : nth_error sample_greys 6 = Some (js "#777")) by reflexivity.
  assert (H10 : no_dollar (js "#777") = true) by reflexivity.
  repeat (split; [assumption|]).
  destruct (@convertSvgToHtml_titled_markup (js "Chrome")
              (js "lineGradientId") sample_greys sample_serializer
              sample_parser sample_layout sample_svg (js " width=400")
              (js "<g></g></svg>") 400%positive (js "px") (js "Revenue")
              (js "#777") sample_document H1 H2 H3 H4 H5 H6 H7 H8 H9 H10)
    as (b & a & x & d' & Hs & _ & Hrun).
  exists b, a, x, d'. split; [exact Hs | exact Hrun].
Defined.

Lemma prependTitle_measures_first_match_witness :
  includes (js "<g") sample_markup = true /\
  js "Revenue" <> [] /\ dollars_literal (js "Revenue") = true /\
  400%Z <> 0%Z /\
  nth_error sample_greys 6 = Some (js "#777") /\
  no_dollar (js "#777") = true /\
  find_id_list (js "britechart_title") (body titled_document)
  = Some (mkNode 0 HTML (js "h1") [(js "id", js "britechart_title")] []) /\
  find_id_list (js "britechart_title") (body charted_document)
  = Some (mkNode 0 SVG (js "text") [(js "id", js "britechart_title")] []) /\
  (exists before after d',
     prependTitle sample_greys sample_parser sample_layout sample_markup
       (JStr (js "Revenue")) (Some (Int 400)) titled_document
     = (d', inr (before ++
                 js "svg" ++ [dq] ++ js ">" ++ [lf] ++ spaces 16 ++
                 text_element (js "50") (js "#777")
                   ([lf] ++ spaces 20 ++ js "Revenue" ++ [lf] ++ spaces 16)
                 ++ js "<g" ++ [lf] ++ spaces 12 ++ after))) /\
  (exists before after d',
     prependTitle sample_greys sample_parser sample_layout sample_markup
       (JStr (js "Revenue")) (Some (Int 400)) charted_document
     = (d', inr (before ++
                 js "svg" ++ [dq] ++ js ">" ++ [lf] ++ spaces 16 ++
                 text_element (js "NaN") (js "#777")
                   ([lf] ++ spaces 20 ++ js "Revenue" ++ [lf] ++ spaces 16)
                 ++ js "<g" ++ [lf] ++ spaces 12 ++ after))).
Proof.
  assert (H1 : includes (js "<g") sample_markup = true) by reflexivity.
  assert (H2 : js "Revenue" <> []) by discriminate.
  assert (H3 : dollars_literal (js "Revenue") = true) by reflexivity.
  assert (H4 : 400%Z <> 0%Z) by discriminate.
  assert (H5 : nth_error sample_greys 6 = Some (js "#777")) by reflexivity.
  assert (H6 : no_dollar (js "#777") = true) by reflexivity.
  assert (H7 : find_id_list (js "britechart_title") (body titled_document)
               = Some (mkNode 0 HTML (js "h1")
                         [(js "id", js "britechart_title")] []))
    by reflexivity.
  assert (H8 : find_id_list (js "britechart_title") (body charted_document)
               = Some (mkNode 0 SVG (js "text")
                         [(js "id", js "britechart_title")] []))
    by reflexivity.
  repeat (split; [assumption|]). split.
  - destruct (@prependTitle_measures_first_match sample_greys sample_parser
                sample_layout sample_markup (js "Revenue") (js "#777") 400
                _ titled_document H1 H2 H3 H4 H5 H6 H7)
      as (b & a & x & d' & _ & _ & Hrun & _ & Hhtml).
    exists b, a, d'. rewrite Hrun.
    rewrite (Hhtml eq_refl 300%Z eq_refl); [reflexivity | simpl; lia..].
  - destruct (@prependTitle_measures_first_match sample_greys sample_parser
                sample_layout sample_markup (js "Revenue") (js "#777") 400
                _ charted_document H1 H2 H3 H4 H5 H6 H8)
      as (b & a & x & d' & _ & _ & Hrun & Hsvg & _).
    exists b, a, d'. rewrite Hrun. now rewrite (Hsvg eq_refl).
Defined.
